(** * haozhu: the asynchronous client of the SMS-code rental service

    A shallow embedding of [haozhu/client.py], [haozhu/utils.py],
    [haozhu/exceptions.py], [haozhu/models.py], [haozhu/constants.py] and
    [haozhu/config.py], followed by the properties of the request/session
    engine, of the operations built on it and of the tables of constants.

    Conventions of the embedding.
    - A Python [str] is a [string] holding its UTF-8 bytes; the substring
      test [in] on code points and on UTF-8 bytes agree, UTF-8 being
      self-synchronising.
    - A coroutine is a function from the world (the client object, the
      number of GET requests issued so far and the trace of effects) to an
      outcome (a returned value or a raised exception) and the new world.
    - What the Python run time, aiohttp, pydantic and the remote service do
      is not code of this repository: [str.lower], the service's answers and
      the field validators of pydantic are variables of the section. *)

From Stdlib Require Import ZArith QArith List String Ascii Bool Lia DecimalString.
Import ListNotations.
Open Scope string_scope.
Open Scope Z_scope.

(** ** Python values *)

(** The values a decoded JSON object holds and keyword arguments carry.
    A float, a list or a nested object is kept as [POther]: the client only
    ever formats such a value with [str] and tests its truth value. *)
Inductive pyval : Type :=
| PNone
| PBool (b : bool)
| PInt (z : Z)
| PStr (s : string)
| POther (text : string) (truth : bool).

(** [str(v)] *)
Definition py_str (v : pyval) : string :=
  match v with
  | PNone => "None"
  | PBool true => "True"
  | PBool false => "False"
  | PInt z => NilZero.string_of_int (Z.to_int z)
  | PStr s => s
  | POther text _ => text
  end.

(** [bool(v)], the test behind [if v], [not v] and [a or b] *)
Definition truthy (v : pyval) : bool :=
  match v with
  | PNone => false
  | PBool b => b
  | PInt z => negb (z =? 0)
  | PStr s => negb (s =? "")%string
  | POther _ truth => truth
  end.

(** [v is None] *)
Definition is_none (v : pyval) : bool :=
  match v with PNone => true | _ => false end.

(** [bool(s)] for a [str] *)
Definition nonempty (s : string) : bool := negb (s =? "")%string.

(** [a or b] on optional strings ([None] and [""] are both false) *)
Definition str_or (a : option string) (b : string) : string :=
  match a with
  | Some s => if nonempty s then s else b
  | None => b
  end.

(** [needle in hay] on strings *)
Fixpoint str_in (needle hay : string) : bool :=
  String.prefix needle hay
  || match hay with
     | EmptyString => false
     | String _ rest => str_in needle rest
     end.

(** [s.rstrip("/")] *)
Fixpoint rstrip_slash (s : string) : string :=
  match s with
  | EmptyString => EmptyString
  | String c rest =>
      match rstrip_slash rest with
      | EmptyString => if (c =? "/")%char then EmptyString else String c EmptyString
      | kept => String c kept
      end
  end.

(** A [dict] with string keys, in insertion order. *)
Definition dict : Type := list (string * pyval).

(** [d.get(key, default)] *)
Fixpoint dict_get (d : dict) (key : string) (default : pyval) : pyval :=
  match d with
  | [] => default
  | (k, v) :: rest => if (k =? key)%string then v else dict_get rest key default
  end.

(** [d[key] = v]: an existing key keeps its place, a new key goes last. *)
Fixpoint dict_set (d : dict) (key : string) (v : pyval) : dict :=
  match d with
  | [] => [(key, v)]
  | (k, old) :: rest =>
      if (k =? key)%string then (k, v) :: rest else (k, old) :: dict_set rest key v
  end.

(** [key in d] *)
Definition dict_mem (d : dict) (key : string) : bool :=
  existsb (fun kv => (fst kv =? key)%string) d.

(** ** exceptions.py *)

(** The subclasses of [HaoZhuError]. *)
Inductive error_kind : Type :=
| AuthenticationError
| APIError
| RateLimitError
| PhoneNotAvailableError
| MessageNotReadyError
| InsufficientBalanceError.

(** The exceptions that travel through the client.  [HaoZhuError kind
    message code] is an instance of the subclass [kind] carrying the two
    attributes its constructor stores. *)
Inductive exn : Type :=
| HaoZhuError (kind : error_kind) (message : string) (code : option string)
| ClientError (info : string)       (* aiohttp.ClientError and its subclasses *)
| TimeoutError (info : string)
| RuntimeError (message : string)
| AttributeError (attribute : string)
| ValidationError (model : string)  (* pydantic refusing a field *)
| OtherException (info : string).   (* e.g. a body that is not JSON *)

(** The classes named in an [except] clause. *)
Inductive exc_class : Type :=
| Exception_class
| ClientError_class
| TimeoutError_class.

Definition instance_of (e : exn) (c : exc_class) : bool :=
  match c, e with
  | Exception_class, _ => true
  | ClientError_class, ClientError _ => true
  | TimeoutError_class, TimeoutError _ => true
  | _, _ => false
  end.

(** [isinstance(e, classes)] for a tuple of classes *)
Definition isinstance (e : exn) (classes : list exc_class) : bool :=
  existsb (instance_of e) classes.

(** The tuple [(aiohttp.ClientError, TimeoutError)] of both decorators. *)
Definition transport_errors : list exc_class :=
  [ClientError_class; TimeoutError_class].

(** ** config.py *)

Module Config.

Record HaoZhuSettings : Type := {
  username : string;
  password : string;
  token : string;
  server : string;
  backup_server : string;
  timeout : Z;
  max_retries : Z;
  retry_delay : Q;
  log_level : string;
  log_requests : bool;
  sid : Z;
  author : string
}.

(** The field defaults of [HaoZhuSettings], what an empty environment gives. *)
Definition defaults : HaoZhuSettings := {|
  username := "";
  password := "";
  token := "";
  server := "https://api.haozhuma.com";
  backup_server := "https://api.haozhuyun.com";
  timeout := 30;
  max_retries := 3;
  retry_delay := 1;
  log_level := "INFO";
  log_requests := false;
  sid := 0;
  author := ""
|}.

End Config.

(** ** models.py *)

Module PhoneNumber.

Record t : Type := {
  phone : string;
  sid : Z;
  country_name : string;
  country_code : string;
  country_qu : string;
  sp : string;
  phone_gsd : string
}.

End PhoneNumber.

Module Message.

Record t : Type := {
  sms : string;
  yzm : string;
  phone : string;
  sid : Z
}.

End Message.

(** [money] is a [decimal.Decimal]; its type is left to pydantic's
    validator, see [validate_decimal] below. *)
Module AccountInfo.

Record t (Decimal : Type) : Type := {
  money : Decimal;
  num : Z
}.
Arguments money {Decimal} _.
Arguments num {Decimal} _.

End AccountInfo.

(** ** constants.py *)

(** The two [IntEnum]s, each with the [int] its members are. *)
Module Carrier.

Inductive t : Type :=
| CHINA_MOBILE
| CHINA_UNICOM
| CHINA_TELECOM
| CHINA_BROADCAST
| VIRTUAL.

Definition value (c : t) : Z :=
  match c with
  | CHINA_MOBILE => 1
  | CHINA_UNICOM => 5
  | CHINA_TELECOM => 9
  | CHINA_BROADCAST => 14
  | VIRTUAL => 16
  end.

End Carrier.

Module PhoneType.

Inductive t : Type :=
| VIRTUAL
| REAL.

Definition value (p : t) : Z :=
  match p with
  | VIRTUAL => 0
  | REAL => 1
  end.

End PhoneType.

(** A [dict] with keys of any type that has an equality test, in insertion
    order: [d[key]] (None for the KeyError) and [d[key] = v]. *)
Section Table.

Context {K V : Type}.
Variable eqb : K -> K -> bool.

Fixpoint table_get (d : list (K * V)) (key : K) : option V :=
  match d with
  | [] => None
  | (k, v) :: rest => if eqb k key then Some v else table_get rest key
  end.

Fixpoint table_set (d : list (K * V)) (key : K) (v : V) : list (K * V) :=
  match d with
  | [] => [(key, v)]
  | (k, old) :: rest =>
      if eqb k key then (k, v) :: rest else (k, old) :: table_set rest key v
  end.

End Table.

Definition PROVINCE_CODES : list (string * Z) :=
  [ ("北京", 10); ("天津", 11); ("河北", 12); ("山西", 13); ("内蒙古", 14);
    ("辽宁", 20); ("吉林", 21); ("黑龙江", 22);
    ("上海", 30); ("江苏", 31); ("浙江", 32); ("安徽", 33); ("福建", 34);
    ("江西", 35); ("山东", 36);
    ("河南", 40); ("湖北", 41); ("湖南", 42); ("广东", 43); ("广西", 44);
    ("海南", 45);
    ("重庆", 50); ("四川", 51); ("贵州", 52); ("云南", 53); ("西藏", 54);
    ("陕西", 60); ("甘肃", 61); ("青海", 62); ("宁夏", 63); ("新疆", 64) ].

(** [{v: k for k, v in PROVINCE_CODES.items()}] *)
Definition PROVINCE_NAMES : list (Z * string) :=
  fold_left (fun d kv => table_set Z.eqb d (snd kv) (fst kv)) PROVINCE_CODES [].

Definition CARRIER_NAMES : list (Z * string) :=
  [ (1, "中国移动"); (5, "中国联通"); (9, "中国电信"); (14, "中国广电");
    (16, "虚拟运营商") ].

(** ** The client object and the world around it *)

(** An [aiohttp.ClientSession]: the client reads its [closed] flag. *)
Record ClientSession : Type := {
  closed : bool;
  total_timeout : Z
}.

Record client : Type := {
  _config : Config.HaoZhuSettings;
  _username : string;
  _password : string;
  _token : pyval;
  _server : string;
  _session : option ClientSession
}.

(** [HaoZhuClient.__init__] *)
Definition HaoZhuClient (settings : Config.HaoZhuSettings)
    (username password token server : option string)
    (config : option Config.HaoZhuSettings) : client :=
  let cfg := match config with Some c => c | None => settings end in
  {| _config := cfg;
     _username := str_or username (Config.username cfg);
     _password := str_or password (Config.password cfg);
     _token := PStr (str_or token (Config.token cfg));
     _server := rstrip_slash (str_or server (Config.server cfg));
     _session := None |}.

Inductive log_level_name : Type := DEBUG | INFO | WARNING | ERROR.

(** What a logging call reports, before it is formatted. *)
Inductive log_record : Type :=
| LogRequest (url : string)
| LogResponse (data : dict)
| LogRetry (attempt max_attempts : Z) (e : exn) (wait_time : Q)
| LogExhausted (e : exn)
| LogLoginOk
| LogReleased (phone : string)
| LogAllReleased
| LogBlacklisted (phone : string).

(** What [session.get(url)], [raise_for_status()] and
    [response.json(content_type=None)] give together. *)
Inductive net_outcome : Type :=
| NetJson (data : dict)
| NetRaise (e : exn).

(** The effects a run leaves behind, oldest first.  A request is recorded
    with what came back. *)
Inductive event : Type :=
| EvSessionOpen (total : Z)
| EvSessionClose
| EvGet (url : string) (answer : net_outcome)
| EvSleep (seconds : Q)
| EvLog (level : log_level_name) (record : log_record).

Record world : Type := {
  self : client;
  gets : nat;
  trace : list event
}.

(** ** Coroutines *)

Inductive outcome (A : Type) : Type :=
| Return (a : A)
| Raise (e : exn).
Arguments Return {A} a.
Arguments Raise {A} e.

Definition M (A : Type) : Type := world -> outcome A * world.

Definition ret {A} (a : A) : M A := fun w => (Return a, w).

Definition raise {A} (e : exn) : M A := fun w => (Raise e, w).

Definition bind {A B} (m : M A) (k : A -> M B) : M B :=
  fun w =>
    match m w with
    | (Return a, w') => k a w'
    | (Raise e, w') => (Raise e, w')
    end.

Notation "x <- m ;; k" := (bind m (fun x => k))
  (at level 61, m at next level, right associativity).
Notation "m ;;; k" := (bind m (fun _ => k))
  (at level 61, right associativity).

Definition emit (ev : event) : M unit :=
  fun w => (Return tt, {| self := self w; gets := gets w; trace := trace w ++ [ev] |}).

Definition log (level : log_level_name) (record : log_record) : M unit :=
  emit (EvLog level record).

(** [await asyncio.sleep(seconds)] *)
Definition sleep (seconds : Q) : M unit := emit (EvSleep seconds).

Definition get_self : M client := fun w => (Return (self w), w).

Definition put_self (c : client) : M unit :=
  fun w => (Return tt, {| self := c; gets := gets w; trace := trace w |}).

Definition when (b : bool) (m : M unit) : M unit := if b then m else ret tt.

Definition set_token (c : client) (t : pyval) : client :=
  {| _config := _config c; _username := _username c; _password := _password c;
     _token := t; _server := _server c; _session := _session c |}.

Definition set_session (c : client) (s : option ClientSession) : client :=
  {| _config := _config c; _username := _username c; _password := _password c;
     _token := _token c; _server := _server c; _session := s |}.

(** [a or b] for an optional [int] and for an optional [float] *)
Definition int_or (a : option Z) (b : Z) : Z :=
  match a with
  | Some z => if z =? 0 then b else z
  | None => b
  end.

Definition float_or (a : option Q) (b : Q) : Q :=
  match a with
  | Some q => if Qeq_bool q 0 then b else q
  | None => b
  end.

(** [range(lo, hi)] *)
Definition py_range (lo hi : Z) : list Z :=
  map (fun i => lo + Z.of_nat i) (seq 0 (Z.to_nat (hi - lo))).

Section Client.

(** [config.settings], the module-level instance [utils.retry] reads. *)
Variable settings : Config.HaoZhuSettings.

(** [str.lower] of the Python run time. *)
Variable str_lower : string -> string.

(** The remote side: what the n-th GET of a run (counting from 0) gives
    for the URL it was sent to. *)
Variable remote : nat -> string -> net_outcome.

(** pydantic's validation of a [str], an [int] and a [Decimal] field. *)
Variable validate_str : pyval -> option string.
Variable validate_int : pyval -> option Z.
Variable Decimal : Type.
Variable validate_decimal : pyval -> option Decimal.

(** ** utils.py: the [retry] decorator *)

Section Retry.

Context {A : Type}.
Variable max_attempts : option Z.
Variable delay : option Q.
Variable exceptions : list exc_class.
Variable exponential_backoff : bool.
Variable func : M A.

Definition _max_attempts : Z := int_or max_attempts (Config.max_retries settings).

Definition _delay : Q := float_or delay (Config.retry_delay settings).

(** The wait after a failed attempt.  Times are exact rationals; the
    products of a power of two with a small integer delay are exact in
    double precision too.  The source computes the product in doubles: it
    is this rational while it is a finite double, which takes an attempt of
    at most 1024, [2 ** 1024] having no double ([backoff_in_range]
    below). *)
Definition wait_time (attempt : Z) : Q :=
  if exponential_backoff then (_delay * inject_Z (2 ^ (attempt - 1)))%Q else _delay.

(** The [for] loop of [wrapper] over the attempts still to make, and the
    two statements after it. *)
Fixpoint retry_loop (attempts : list Z) (last_exception : option exn) : M A :=
  match attempts with
  | [] =>
      match last_exception with
      | Some e => raise e
      | None => raise (RuntimeError "重试失败，但未捕获到异常")
      end
  | attempt :: rest =>
      fun w =>
        match func w with
        | (Return a, w') => (Return a, w')
        | (Raise e, w') =>
            if isinstance e exceptions then
              ((if attempt <? _max_attempts
                then log WARNING (LogRetry attempt _max_attempts e (wait_time attempt)) ;;;
                     sleep (wait_time attempt)
                else log ERROR (LogExhausted e)) ;;;
               retry_loop rest (Some e)) w'
            else (Raise e, w')
        end
  end.

Definition retry : M A := retry_loop (py_range 1 (_max_attempts + 1)) None.

End Retry.

(** ** client.py *)

(** [_ensure_session] *)
Definition _ensure_session : M ClientSession :=
  c <- get_self ;;
  let create : M ClientSession :=
    let s := {| closed := false; total_timeout := Config.timeout (_config c) |} in
    put_self (set_session c (Some s)) ;;;
    emit (EvSessionOpen (Config.timeout (_config c))) ;;;
    ret s in
  match _session c with
  | None => create
  | Some s => if closed s then create else ret s
  end.

(** [close] *)
Definition close : M unit :=
  c <- get_self ;;
  match _session c with
  | Some s =>
      if negb (closed s)
      then emit EvSessionClose ;;; put_self (set_session c None)
      else ret tt
  | None => ret tt
  end.

(** [__aenter__] and [__aexit__] *)
Definition __aenter__ : M unit := _ <- _ensure_session ;; ret tt.

Definition __aexit__ : M unit := close.

(** The list [query_parts] at the end of the loop of [_build_url]. *)
Definition query_parts (api : string) (params : dict) : list string :=
  fold_left
    (fun parts kv =>
       if is_none (snd kv) then parts
       else (parts ++ [(fst kv ++ "=" ++ py_str (snd kv))%string])%list)
    params [("api=" ++ api)%string].

(** [_build_url] *)
Definition _build_url (c : client) (api : string) (params : dict) : string :=
  let query_string := String.concat "&" (query_parts api params) in
  _server c ++ "/sms/?" ++ query_string.

(** [async with session.get(url) as response], [raise_for_status] and
    [response.json]: one exchange with the remote side. *)
Definition http_get (url : string) : M dict :=
  fun w =>
    let w' := {| self := self w; gets := S (gets w);
                 trace := trace w ++ [EvGet url (remote (gets w) url)] |} in
    match remote (gets w) url with
    | NetJson data => (Return data, w')
    | NetRaise e => (Raise e, w')
    end.

(** The body of [_request], before decoration. *)
Definition _request_body (api : string) (params : dict) : M dict :=
  _ <- _ensure_session ;;
  c <- get_self ;;
  let url := _build_url c api params in
  when (Config.log_requests (_config c)) (log DEBUG (LogRequest url)) ;;;
  data <- http_get url ;;
  when (Config.log_requests (_config c)) (log DEBUG (LogResponse data)) ;;;
  ret data.

(** [_request], as decorated by [@retry(exceptions=(aiohttp.ClientError, TimeoutError))] *)
Definition _request (api : string) (params : dict) : M dict :=
  retry None None transport_errors true (_request_body api params).

(** [_check_response].  [msg.lower()] is the first thing asked of [msg]
    that only a [str] answers. *)
Definition _check_response (data : dict) (context : string) : M unit :=
  let code := py_str (dict_get data "code" (PStr "-1")) in
  let msg := dict_get data "msg" (PStr "未知错误") in
  if (code =? "0")%string || (code =? "200")%string then ret tt
  else
    match msg with
    | PStr msg =>
        let error_msg := if nonempty context then context ++ ": " ++ msg else msg in
        if str_in "token" (str_lower msg) || str_in "登录" msg || str_in "密码" msg
        then raise (HaoZhuError AuthenticationError error_msg (Some code))
        else if str_in "余额" msg || str_in "扣费" msg
        then raise (HaoZhuError InsufficientBalanceError error_msg (Some code))
        else if str_in "号码" msg
                && (str_in "无" msg || str_in "没有" msg || str_in "不足" msg)
        then raise (HaoZhuError PhoneNotAvailableError error_msg (Some code))
        else if str_in "等待" msg
                || (str_in "短信" msg && (str_in "无" msg || str_in "没有" msg))
        then raise (HaoZhuError MessageNotReadyError error_msg (Some code))
        else raise (HaoZhuError APIError error_msg (Some code))
    | _ => raise (AttributeError "lower")
    end.

(** The URL [login] builds by hand. *)
Definition login_url (c : client) : string :=
  _server c ++ "/sms/?api=login&user=" ++ _username c ++ "&pass=" ++ _password c.

(** The body of [login], before decoration. *)
Definition login_body : M pyval :=
  c <- get_self ;;
  if negb (nonempty (_username c)) || negb (nonempty (_password c))
  then raise (HaoZhuError AuthenticationError "用户名和密码不能为空" None)
  else
    _ <- _ensure_session ;;
    let url := login_url c in
    when (Config.log_requests (_config c)) (log DEBUG (LogRequest url)) ;;;
    data <- http_get url ;;
    when (Config.log_requests (_config c)) (log DEBUG (LogResponse data)) ;;;
    _check_response data "登录" ;;;
    c <- get_self ;;
    put_self (set_token c (dict_get data "token" (PStr ""))) ;;;
    c <- get_self ;;
    if negb (truthy (_token c))
    then raise (HaoZhuError AuthenticationError "登录成功但未返回 token" None)
    else
      log INFO LogLoginOk ;;;
      ret (_token c).

(** [login], as decorated by [@retry(exceptions=(aiohttp.ClientError, TimeoutError))] *)
Definition login : M pyval :=
  retry None None transport_errors true login_body.

(** [_ensure_token] *)
Definition _ensure_token : M pyval :=
  c <- get_self ;;
  (if negb (truthy (_token c)) then _ <- login ;; ret tt else ret tt) ;;;
  c <- get_self ;;
  ret (_token c).

(** [get_account_info] *)
Definition get_account_info : M (AccountInfo.t Decimal) :=
  token <- _ensure_token ;;
  data <- _request "getSummary" [("token", token)] ;;
  _check_response data "获取账号信息" ;;;
  match validate_decimal (dict_get data "money" (PStr "0")),
        validate_int (dict_get data "num" (PInt 0)) with
  | Some money, Some num => ret {| AccountInfo.money := money; AccountInfo.num := num |}
  | _, _ => raise (ValidationError "AccountInfo")
  end.

(** [params[key] = value] under [if value is not None], for an [int] *)
Definition set_if_given (params : dict) (key : string) (value : option Z) : dict :=
  match value with
  | Some z => dict_set params key (PInt z)
  | None => params
  end.

(** [params[key] = value] under [if value], for a [str] *)
Definition set_if_true (params : dict) (key : string) (value : option string) : dict :=
  match value with
  | Some s => if nonempty s then dict_set params key (PStr s) else params
  | None => params
  end.

(** The dictionary [params] that [get_phone] assembles before the call. *)
Definition get_phone_params (token : pyval) (sid : Z)
    (carrier province phone_type : option Z)
    (prefix exclude_prefix uid author : option string) : dict :=
  let params := [("token", token); ("sid", PInt sid)] in
  let params := set_if_given params "operator" carrier in
  let params := set_if_given params "province" province in
  let params := set_if_given params "phone_type" phone_type in
  let params := set_if_true params "prefix" prefix in
  let params := set_if_true params "exclude_prefix" exclude_prefix in
  let params := set_if_true params "uid" uid in
  let params := set_if_true params "author" author in
  params.

(** [PhoneNumber(phone=..., sid=..., ...)]: every field goes through its
    validator. *)
Definition PhoneNumber_new
    (phone sid country_name country_code country_qu sp phone_gsd : pyval)
    : M PhoneNumber.t :=
  match validate_str phone, validate_int sid, validate_str country_name,
        validate_str country_code, validate_str country_qu, validate_str sp,
        validate_str phone_gsd with
  | Some phone, Some sid, Some country_name, Some country_code,
    Some country_qu, Some sp, Some phone_gsd =>
      ret {| PhoneNumber.phone := phone;
             PhoneNumber.sid := sid;
             PhoneNumber.country_name := country_name;
             PhoneNumber.country_code := country_code;
             PhoneNumber.country_qu := country_qu;
             PhoneNumber.sp := sp;
             PhoneNumber.phone_gsd := phone_gsd |}
  | _, _, _, _, _, _, _ => raise (ValidationError "PhoneNumber")
  end.

(** [get_phone] *)
Definition get_phone (sid : Z) (carrier province phone_type : option Z)
    (prefix exclude_prefix uid author : option string) : M PhoneNumber.t :=
  token <- _ensure_token ;;
  let params := get_phone_params token sid carrier province phone_type
                  prefix exclude_prefix uid author in
  data <- _request "getPhone" params ;;
  _check_response data "获取号码" ;;;
  PhoneNumber_new
    (dict_get data "phone" (PStr ""))
    (dict_get data "sid" (PInt sid))
    (dict_get data "country_name" (PStr "中国"))
    (dict_get data "country_code" (PStr "CN"))
    (dict_get data "country_qu" (PStr "86"))
    (dict_get data "sp" (PStr ""))
    (dict_get data "phone_gsd" (PStr "")).

(** The dictionary [params] of [get_phone_specific]. *)
Definition get_phone_specific_params (token : pyval) (sid : Z) (phone : string)
    (author : option string) : dict :=
  let params := [("token", token); ("sid", PInt sid); ("phone", PStr phone)] in
  set_if_true params "author" author.

(** [get_phone_specific] *)
Definition get_phone_specific (sid : Z) (phone : string) (author : option string)
    : M PhoneNumber.t :=
  token <- _ensure_token ;;
  let params := get_phone_specific_params token sid phone author in
  data <- _request "getPhone" params ;;
  _check_response data "指定号码" ;;;
  PhoneNumber_new
    (dict_get data "phone" (PStr phone))
    (dict_get data "sid" (PInt sid))
    (dict_get data "country_name" (PStr "中国"))
    (dict_get data "country_code" (PStr "CN"))
    (dict_get data "country_qu" (PStr "86"))
    (dict_get data "sp" (PStr ""))
    (dict_get data "phone_gsd" (PStr "")).

(** [get_message] *)
Definition get_message (sid : Z) (phone : string) : M Message.t :=
  token <- _ensure_token ;;
  data <- _request "getMessage" [("token", token); ("sid", PInt sid); ("phone", PStr phone)] ;;
  _check_response data "获取验证码" ;;;
  match validate_str (dict_get data "sms" (PStr "")),
        validate_str (dict_get data "yzm" (PStr "")) with
  | Some sms, Some yzm =>
      ret {| Message.sms := sms; Message.yzm := yzm;
             Message.phone := phone; Message.sid := sid |}
  | _, _ => raise (ValidationError "Message")
  end.

(** [release_phone] *)
Definition release_phone (sid : Z) (phone : string) : M bool :=
  token <- _ensure_token ;;
  data <- _request "cancelRecv" [("token", token); ("sid", PInt sid); ("phone", PStr phone)] ;;
  _check_response data "释放号码" ;;;
  log INFO (LogReleased phone) ;;;
  ret true.

(** [release_all] *)
Definition release_all : M bool :=
  token <- _ensure_token ;;
  data <- _request "cancelAllRecv" [("token", token)] ;;
  _check_response data "释放所有号码" ;;;
  log INFO LogAllReleased ;;;
  ret true.

(** [blacklist_phone] *)
Definition blacklist_phone (sid : Z) (phone : string) : M bool :=
  token <- _ensure_token ;;
  data <- _request "addBlacklist" [("token", token); ("sid", PInt sid); ("phone", PStr phone)] ;;
  _check_response data "拉黑号码" ;;;
  log INFO (LogBlacklisted phone) ;;;
  ret true.

(** ** The words of the specification *)

(** The four keyword tests of the classifier, one per kind that has one. *)
Definition mentions_authentication (msg : string) : bool :=
  str_in "token" (str_lower msg) || str_in "登录" msg || str_in "密码" msg.

Definition mentions_balance (msg : string) : bool :=
  str_in "余额" msg || str_in "扣费" msg.

Definition mentions_no_number (msg : string) : bool :=
  str_in "号码" msg && (str_in "无" msg || str_in "没有" msg || str_in "不足" msg).

Definition mentions_no_message (msg : string) : bool :=
  str_in "等待" msg || (str_in "短信" msg && (str_in "无" msg || str_in "没有" msg)).

(** The priority list of section 4.2: the first rule whose test holds gives
    the kind, [APIError] is the fallback. *)
Definition priority_rules : list (error_kind * (string -> bool)) :=
  [ (AuthenticationError, mentions_authentication);
    (InsufficientBalanceError, mentions_balance);
    (PhoneNotAvailableError, mentions_no_number);
    (MessageNotReadyError, mentions_no_message) ].

Fixpoint first_match (rules : list (error_kind * (string -> bool))) (msg : string)
    : error_kind :=
  match rules with
  | [] => APIError
  | (kind, test) :: rest => if test msg then kind else first_match rest msg
  end.

Definition classify (msg : string) : error_kind := first_match priority_rules msg.

(** The five kinds the classifier produces. *)
Definition produced_kinds : list error_kind :=
  [ AuthenticationError; InsufficientBalanceError; PhoneNotAvailableError;
    MessageNotReadyError; APIError ].

(** The message a classified error carries. *)
Definition composed_message (context msg : string) : string :=
  if nonempty context then context ++ ": " ++ msg else msg.

(** The code of an envelope as the classifier reads it, and the test for
    the two success codes. *)
Definition envelope_code (data : dict) : string :=
  py_str (dict_get data "code" (PStr "-1")).

Definition is_success (data : dict) : bool :=
  (envelope_code data =? "0")%string || (envelope_code data =? "200")%string.

(** ** Notions for the statements *)

(** The connection resource is released: there is none, or it is closed. *)
Definition released (c : client) : Prop :=
  match _session c with
  | None => True
  | Some s => closed s = true
  end.

(** A world with further effects appended and nothing else changed. *)
Definition after (w : world) (events : list event) : world :=
  {| self := self w; gets := gets w; trace := trace w ++ events |}.

(** Parameters written as [key=value], in their order. *)
Definition rendered (params : dict) : list string :=
  map (fun kv => (fst kv ++ "=" ++ py_str (snd kv))%string) params.

(** The query parts of [_build_url] in the words of section 4.3: the api
    name first, then each parameter that is not null, in the order given. *)
Definition query_of (api : string) (params : dict) : list string :=
  ("api=" ++ api)%string
  :: rendered (filter (fun kv => negb (is_none (snd kv))) params).

(** An optional [int] filter and an optional [str] filter as the
    parameters they contribute. *)
Definition int_filter (key : string) (value : option Z) : dict :=
  match value with
  | Some z => [(key, PInt z)]
  | None => []
  end.

Definition str_filter (key : string) (value : option string) : dict :=
  match value with
  | Some s => if nonempty s then [(key, PStr s)] else []
  | None => []
  end.




(** What [_ensure_session] leaves: the client with a live session, and
    the event of opening one when it had to. *)
Definition fresh_session (c : client) : ClientSession :=
  {| closed := false; total_timeout := Config.timeout (_config c) |}.

Definition ensured (c : client) : client :=
  match _session c with
  | None => set_session c (Some (fresh_session c))
  | Some s => if closed s then set_session c (Some (fresh_session c)) else c
  end.

Definition ensure_events (c : client) : list event :=
  match _session c with
  | None => [EvSessionOpen (Config.timeout (_config c))]
  | Some s => if closed s then [EvSessionOpen (Config.timeout (_config c))] else []
  end.


(** The error of [login] for empty credentials. *)
Definition empty_credentials_error : exn :=
  HaoZhuError AuthenticationError "用户名和密码不能为空" None.


(** A call of one of the operations of the client, with its arguments. *)
Inductive operation : Type :=
| Login
| GetAccountInfo
| GetPhone (sid : Z) (carrier province phone_type : option Z)
    (prefix exclude_prefix uid author : option string)
| GetPhoneSpecific (sid : Z) (phone : string) (author : option string)
| GetMessage (sid : Z) (phone : string)
| ReleasePhone (sid : Z) (phone : string)
| ReleaseAll
| BlacklistPhone (sid : Z) (phone : string)
| Close
| AEnter
| AExit.

(** A coroutine run for its effects and its exception only. *)
Definition discard {A : Type} (m : M A) : M unit := _ <- m ;; ret tt.

Definition perform (op : operation) : M unit :=
  match op with
  | Login => discard login
  | GetAccountInfo => discard get_account_info
  | GetPhone sid carrier province phone_type prefix exclude_prefix uid author =>
      discard (get_phone sid carrier province phone_type
                 prefix exclude_prefix uid author)
  | GetPhoneSpecific sid phone author => discard (get_phone_specific sid phone author)
  | GetMessage sid phone => discard (get_message sid phone)
  | ReleasePhone sid phone => discard (release_phone sid phone)
  | ReleaseAll => discard release_all
  | BlacklistPhone sid phone => discard (blacklist_phone sid phone)
  | Close => close
  | AEnter => __aenter__
  | AExit => __aexit__
  end.

(** The exception of an outcome, if it is one. *)
Definition raised {A : Type} (r : outcome A) : option exn :=
  match r with
  | Return _ => None
  | Raise e => Some e
  end.

(** A coroutine that leaves the held token as it found it, whatever its
    outcome; and one that does so unless its outcome is excused. *)
Definition keeps_token {A : Type} (m : M A) : Prop :=
  forall w r w', m w = (r, w') -> _token (self w') = _token (self w).

Definition keeps_token_unless {A : Type} (excused : outcome A -> Prop) (m : M A)
    : Prop :=
  forall w r w', m w = (r, w') -> excused r \/ _token (self w') = _token (self w).


(** A request that was answered by an envelope whose code is not a
    success code. *)
Definition failure_exchange (ev : event) : bool :=
  match ev with
  | EvGet _ (NetJson data) => negb (is_success data)
  | _ => false
  end.

(** Events among which no request was answered by such an envelope. *)
Definition clean (events : list event) : Prop :=
  Forall (fun ev => failure_exchange ev = false) events.

(** The request that was answered by the failure envelope [data], followed
    at most by the debug log of the answer. *)
Definition closes_with (data : dict) (rest : list event) : Prop :=
  is_success data = false
  /\ exists url,
      rest = [EvGet url (NetJson data)]
      \/ rest = [EvGet url (NetJson data); EvLog DEBUG (LogResponse data)].

(** The events of a run in which a failure envelope, if one was received
    at all, was the last thing that happened: [final] says how the run
    ended on it. *)
Definition failure_last {A : Type} (final : outcome A -> list event -> Prop)
    (r : outcome A) (events : list event) : Prop :=
  clean events
  \/ exists before rest,
      events = (before ++ rest)%list /\ clean before /\ final r rest.

(** A run that ended on a failure envelope by raising. *)
Definition raised_on_failure {A : Type} (r : outcome A) (rest : list event) : Prop :=
  raised r <> None /\ exists data, closes_with data rest.

(** The run of [_request] that handed a failure envelope to its caller. *)
Definition returned_failure (r : outcome dict) (rest : list event) : Prop :=
  exists data, r = Return data /\ closes_with data rest.

(** The run of [login] that a failure envelope ended with an exception the
    decorator does not catch. *)
Definition rejected (r : outcome pyval) (rest : list event) : Prop :=
  (exists e, r = Raise e /\ isinstance e transport_errors = false)
  /\ exists data, closes_with data rest.

(** The run from [w] to [w'] only added events, and clean ones. *)
Definition clean_run (w w' : world) : Prop :=
  exists events, trace w' = (trace w ++ events)%list /\ clean events.

(** A coroutine whose runs add events of which [post] holds. *)
Definition adds {A : Type} (post : outcome A -> list event -> Prop) (m : M A) : Prop :=
  forall w r w', m w = (r, w') ->
    exists events, trace w' = (trace w ++ events)%list /\ post r events.

(** The URLs requested in a list of events, in their order. *)
Definition requests (events : list event) : list string :=
  flat_map (fun ev => match ev with EvGet url _ => [url] | _ => [] end) events.

(** From a client of server [base], the run from [w] to [w'] keeps the
    server and sends its requests to [url] only. *)
Definition sends_only (base url : string) (w w' : world) : Prop :=
  _server (self w) = base ->
  _server (self w') = base
  /\ exists events,
      trace w' = (trace w ++ events)%list /\ Forall (eq url) (requests events).

(** A coroutine all of whose runs are in a relation between the world
    before and the world after. *)
Definition preserves (R : world -> world -> Prop) {A : Type} (m : M A) : Prop :=
  forall w r w', m w = (r, w') -> R w w'.

(** ** Further notions for the statements *)

(** [async with client: body], as main.py uses the client: the body runs
    between [__aenter__] and [__aexit__]; [__aexit__] runs however the body
    ends and, answering None, lets the exception of the body through. *)
Definition async_with {A : Type} (body : M A) : M A :=
  fun w =>
    match __aenter__ w with
    | (Return _, w1) =>
        match body w1 with
        | (r, w2) =>
            match __aexit__ w2 with
            | (Return _, w3) => (r, w3)
            | (Raise e, w3) => (Raise e, w3)
            end
        end
    | (Raise e, w1) => (Raise e, w1)
    end.

(** The operations that talk to the service, and among them those that
    need a token. *)
Definition talks_to_service (op : operation) : bool :=
  match op with
  | Close | AEnter | AExit => false
  | _ => true
  end.

Definition needs_token (op : operation) : bool :=
  match op with
  | Login | Close | AEnter | AExit => false
  | _ => true
  end.

(** The api name and the parameters of the request of an operation that
    needs a token. *)
Definition endpoint (op : operation) (token : pyval) : option (string * dict) :=
  match op with
  | GetAccountInfo => Some ("getSummary", [("token", token)])
  | GetPhone sid carrier province phone_type prefix exclude_prefix uid author =>
      Some ("getPhone",
            get_phone_params token sid carrier province phone_type
              prefix exclude_prefix uid author)
  | GetPhoneSpecific sid phone author =>
      Some ("getPhone", get_phone_specific_params token sid phone author)
  | GetMessage sid phone =>
      Some ("getMessage", [("token", token); ("sid", PInt sid); ("phone", PStr phone)])
  | ReleasePhone sid phone =>
      Some ("cancelRecv", [("token", token); ("sid", PInt sid); ("phone", PStr phone)])
  | ReleaseAll => Some ("cancelAllRecv", [("token", token)])
  | BlacklistPhone sid phone =>
      Some ("addBlacklist", [("token", token); ("sid", PInt sid); ("phone", PStr phone)])
  | Login | Close | AEnter | AExit => None
  end.

(** What every operation leaves of the client: the settings, the
    credentials and the server are as before. *)
Definition same_identity (c c' : client) : Prop :=
  _config c' = _config c
  /\ _username c' = _username c
  /\ _password c' = _password c
  /\ _server c' = _server c.

(** The connection resource is the one there was, or there was none to
    use and it is a new one. *)
Definition session_kept (c c' : client) : Prop :=
  _session c' = _session c
  \/ (released c /\ _session c' = Some (fresh_session c)).

Definition evolves (w w' : world) : Prop :=
  same_identity (self w) (self w') /\ session_kept (self w) (self w').

(** The run from [w] to [w'] keeps the settings, the credentials and the
    server, and sends its requests to the URL of [login] only. *)
Definition logs_in_only (w w' : world) : Prop :=
  same_identity (self w) (self w')
  /\ exists events,
      trace w' = (trace w ++ events)%list
      /\ Forall (eq (login_url (self w))) (requests events).

(** The range in which the waits of the decorator are the products the
    source computes.  With exponential backoff the source multiplies a
    double by the integer [2 ** (attempt - 1)]: the integer converts to a
    double up to attempt 1024, and from attempt 1025 on the product raises
    OverflowError; and the product is a finite double while it stays under
    2^1024 in size.  The last wait is the one after attempt ceiling-1. *)
Definition backoff_in_range (max_attempts : option Z) (delay : option Q)
    (exponential_backoff : bool) : Prop :=
  exponential_backoff = true ->
  _max_attempts max_attempts <= 1025
  /\ (- inject_Z (2 ^ 1024)
      < _delay delay * inject_Z (2 ^ (_max_attempts max_attempts - 2))
      < inject_Z (2 ^ 1024))%Q.

(** The requests an operation may send at most: the ceiling of attempts
    for its own request, and as many again for the login it starts with
    when no token is held. *)
Definition budget (op : operation) (held : bool) : nat :=
  let ceiling := Z.to_nat (Config.max_retries settings) in
  match op with
  | Close | AEnter | AExit => 0%nat
  | Login => ceiling
  | _ => if held then ceiling else (ceiling + ceiling)%nat
  end.

(** A run of [k] slashes. *)
Fixpoint slashes (k : nat) : string :=
  match k with
  | O => EmptyString
  | S k => String "/" (slashes k)
  end.

(** The waits among a list of events, in their order. *)
Definition sleeps (events : list event) : list Q :=
  flat_map (fun ev => match ev with EvSleep seconds => [seconds] | _ => [] end) events.

(** A coroutine whose runs send at most [n] requests, each counted. *)
Definition sends_at_most (n : nat) {A : Type} (m : M A) : Prop :=
  forall w r w', m w = (r, w') ->
    exists events,
      trace w' = (trace w ++ events)%list
      /\ gets w' = (gets w + List.length (requests events))%nat
      /\ (List.length (requests events) <= n)%nat.

(** An exception that, when it is an error of the taxonomy, is of a kind
    the classifier produces, or is one the remote side raised on a
    request. *)
Definition of_produced_kind (e : exn) : Prop :=
  forall kind message code,
    e = HaoZhuError kind message code ->
    In kind produced_kinds \/ exists n url, remote n url = NetRaise e.

(** A coroutine that raises only exceptions of which [P] holds. *)
Definition raises_only (P : exn -> Prop) {A : Type} (m : M A) : Prop :=
  forall w w' e, m w = (Raise e, w') -> P e.



(** ** Sample data *)

(** [str.lower] on ASCII letters; the other bytes, those of the UTF-8 form
    of a Chinese character among them, stay as they are. *)
Definition ascii_lower_char (c : ascii) : ascii :=
  let n := nat_of_ascii c in
  if ((65 <=? n) && (n <=? 90))%nat then ascii_of_nat (n + 32) else c.

Fixpoint ascii_lower (s : string) : string :=
  match s with
  | EmptyString => EmptyString
  | String c rest => String (ascii_lower_char c) (ascii_lower rest)
  end.

(** Validators that take a value of the field's own type and nothing else;
    a [Decimal] is kept as the text it was parsed from. *)
Definition strict_str (v : pyval) : option string :=
  match v with PStr s => Some s | _ => None end.

Definition strict_int (v : pyval) : option Z :=
  match v with PInt z => Some z | _ => None end.

Definition text_decimal (v : pyval) : option string :=
  match v with
  | PStr s => Some s
  | PInt z => Some (py_str (PInt z))
  | _ => None
  end.

(** The default settings with a retry ceiling of 0. *)
Definition settings_without_attempts : Config.HaoZhuSettings :=
  {| Config.username := "";
     Config.password := "";
     Config.token := "";
     Config.server := "https://api.haozhuma.com";
     Config.backup_server := "https://api.haozhuyun.com";
     Config.timeout := 30;
     Config.max_retries := 0;
     Config.retry_delay := 1;
     Config.log_level := "INFO";
     Config.log_requests := false;
     Config.sid := 0;
     Config.author := "" |}.

(** Clients as [HaoZhuClient(...)] makes them under the default settings:
    without anything, with credentials, with a token, with both. *)
Definition anonymous_client : client :=
  HaoZhuClient Config.defaults None None None None None.

Definition client_with_credentials : client :=
  HaoZhuClient Config.defaults (Some "alice") (Some "secret") None None None.

Definition client_with_token : client :=
  HaoZhuClient Config.defaults None None (Some "T0") None None.

Definition client_with_both : client :=
  HaoZhuClient Config.defaults (Some "alice") (Some "secret") (Some "T0") None None.

(** The world at the start of a run. *)
Definition fresh_world (c : client) : world :=
  {| self := c; gets := 0; trace := [] |}.

(** Answers of the remote side: a time-out and a reset connection; an
    envelope that grants a token and one that says the token has expired;
    a bare success envelope; a success envelope carrying a phone number and
    nothing else; an envelope that rejects the password. *)
Definition timeout_answer : net_outcome := NetRaise (TimeoutError "").

Definition reset_answer : net_outcome := NetRaise (ClientError "connection reset").

Definition granted_answer : net_outcome :=
  NetJson [("code", PInt 0); ("msg", PStr "ok"); ("token", PStr "T1")].

Definition expired_answer : net_outcome :=
  NetJson [("code", PInt 1); ("msg", PStr "Token 已过期")].

Definition bare_success_answer : net_outcome :=
  NetJson [("code", PStr "200"); ("msg", PStr "ok")].

Definition phone_answer : net_outcome :=
  NetJson [("code", PInt 0); ("phone", PStr "13800000000")].

Definition wrong_password_answer : net_outcome :=
  NetJson [("code", PInt 1); ("msg", PStr "密码错误")].

(** Remote sides: one that times out on every request; one that grants a
    token to the first request and rejects the token in every later one;
    one that fails once in transport and then answers with a bare success
    envelope; one that always sends the phone number; one that always
    rejects the password. *)
Definition remote_down (n : nat) (url : string) : net_outcome := timeout_answer.

Definition remote_grant_then_reject (n : nat) (url : string) : net_outcome :=
  match n with
  | O => granted_answer
  | S _ => expired_answer
  end.

Definition remote_bare_success (n : nat) (url : string) : net_outcome :=
  match n with
  | O => reset_answer
  | S _ => bare_success_answer
  end.

Definition remote_phone (n : nat) (url : string) : net_outcome := phone_answer.

Definition remote_wrong_password (n : nat) (url : string) : net_outcome :=
  wrong_password_answer.

(** A session that is open, under the default timeout. *)
Definition open_session : ClientSession :=
  {| closed := false; total_timeout := 30 |}.



(** Further remote sides: one that fails once in transport and then grants
    a token; one that always sends the message; one that always sends the
    account summary. *)
Definition remote_reset_then_grant (n : nat) (url : string) : net_outcome :=
  match n with
  | O => reset_answer
  | S _ => granted_answer
  end.



(** * Properties *)

(** ** The classifier *)

Lemma classify_produced (msg : string) : In (classify msg) produced_kinds.
Proof.
  unfold classify, priority_rules, first_match, produced_kinds.
  destruct (mentions_authentication msg); [simpl; auto |].
  destruct (mentions_balance msg); [simpl; auto |].
  destruct (mentions_no_number msg); [simpl; auto |].
  destruct (mentions_no_message msg); simpl; auto 6.
Qed.

Lemma classify_token_first (msg : string) :
  str_in "token" (str_lower msg) = true -> classify msg = AuthenticationError.
Proof.
  intros Htoken.
  unfold classify, priority_rules, first_match, mentions_authentication.
  now rewrite Htoken.
Qed.

Lemma check_response_success (data : dict) (context : string) (w : world) :
  is_success data = true -> _check_response data context w = (Return tt, w).
Proof.
  unfold is_success, envelope_code, _check_response.
  intros ->. reflexivity.
Qed.

Lemma check_response_failure (data : dict) (context msg : string) (w : world) :
  is_success data = false ->
  dict_get data "msg" (PStr "未知错误") = PStr msg ->
  _check_response data context w
  = (Raise (HaoZhuError (classify msg) (composed_message context msg)
                        (Some (envelope_code data))), w).
Proof.
  unfold is_success, envelope_code, _check_response.
  intros -> ->.
  unfold classify, priority_rules, first_match, composed_message.
  unfold mentions_authentication, mentions_balance, mentions_no_number,
    mentions_no_message.
  repeat match goal with
         | |- context [if ?b then raise _ else _] => destruct b
         end; reflexivity.
Qed.

(** C1. An envelope whose code, as a string, is neither "0" nor "200" and
    whose message is text makes the classifier raise one error, of the kind
    the priority list gives: the first of AuthenticationError,
    InsufficientBalanceError, PhoneNotAvailableError, MessageNotReadyError
    whose keyword test holds, APIError when none does.  The kind is one of
    these five, and it is AuthenticationError whenever the lowered message
    contains "token", whatever else it contains. *)
Theorem check_response_priority (data : dict) (context msg : string) (w : world) :
  envelope_code data <> "0" ->
  envelope_code data <> "200" ->
  dict_get data "msg" (PStr "未知错误") = PStr msg ->
  _check_response data context w
  = (Raise (HaoZhuError (classify msg) (composed_message context msg)
                        (Some (envelope_code data))), w)
  /\ In (classify msg) produced_kinds
  /\ (str_in "token" (str_lower msg) = true -> classify msg = AuthenticationError).
Proof.
  intros H0 H200 Hmsg.
  split; [| split].
  - apply check_response_failure; [| assumption].
    unfold is_success.
    apply String.eqb_neq in H0. apply String.eqb_neq in H200.
    now rewrite H0, H200.
  - apply classify_produced.
  - apply classify_token_first.
Qed.

(** ** The retry loop *)

Lemma after_after (w : world) (l1 l2 : list event) :
  after (after w l1) l2 = after w (l1 ++ l2).
Proof. unfold after. simpl. now rewrite app_assoc. Qed.

Lemma emit_after (ev : event) (w : world) : emit ev w = (Return tt, after w [ev]).
Proof. reflexivity. Qed.

Lemma isinstance_transport (e : exn) :
  isinstance e transport_errors = true <->
  exists info, e = ClientError info \/ e = TimeoutError info.
Proof.
  split.
  - destruct e; simpl; try discriminate; intros _; eauto.
  - intros [info [-> | ->]]; reflexivity.
Qed.

Section RetryFacts.

Context {A : Type}.
Variable max_attempts : option Z.
Variable delay : option Q.
Variable exceptions : list exc_class.
Variable exponential_backoff : bool.
Variable func : M A.

Local Notation "'loop'" := (retry_loop max_attempts delay exceptions exponential_backoff func).
Local Notation "'ceiling'" := (_max_attempts max_attempts).
Local Notation "'wait'" := (wait_time delay exponential_backoff).

Lemma retry_loop_return (attempt : Z) (rest : list Z) (last : option exn)
    (w w' : world) (a : A) :
  func w = (Return a, w') ->
  loop (attempt :: rest) last w = (Return a, w').
Proof. intros H. simpl. now rewrite H. Qed.

Lemma retry_loop_propagate (attempt : Z) (rest : list Z) (last : option exn)
    (w w' : world) (e : exn) :
  func w = (Raise e, w') ->
  isinstance e exceptions = false ->
  loop (attempt :: rest) last w = (Raise e, w').
Proof. intros H Hi. simpl. now rewrite H, Hi. Qed.

Lemma retry_loop_again (attempt : Z) (rest : list Z) (last : option exn)
    (w w' : world) (e : exn) :
  func w = (Raise e, w') ->
  isinstance e exceptions = true ->
  attempt < ceiling ->
  loop (attempt :: rest) last w
  = loop rest (Some e)
      (after w' [EvLog WARNING (LogRetry attempt ceiling e (wait attempt));
                 EvSleep (wait attempt)]).
Proof.
  intros H Hi Hlt. simpl. rewrite H, Hi.
  apply Z.ltb_lt in Hlt. rewrite Hlt.
  unfold bind, log, sleep. rewrite !emit_after, after_after. reflexivity.
Qed.

Lemma retry_loop_exhausted (attempt : Z) (rest : list Z) (last : option exn)
    (w w' : world) (e : exn) :
  func w = (Raise e, w') ->
  isinstance e exceptions = true ->
  ceiling <= attempt ->
  loop (attempt :: rest) last w
  = loop rest (Some e) (after w' [EvLog ERROR (LogExhausted e)]).
Proof.
  intros H Hi Hge. simpl. rewrite H, Hi.
  apply Z.ltb_ge in Hge. rewrite Hge.
  unfold bind, log. rewrite emit_after. reflexivity.
Qed.

(** Whatever the branch, a caught exception sends the loop on with the
    client object and the request counter as the attempt left them. *)
Lemma retry_loop_caught (attempt : Z) (rest : list Z) (last : option exn)
    (w w' : world) (e : exn) :
  func w = (Raise e, w') ->
  isinstance e exceptions = true ->
  exists events,
    loop (attempt :: rest) last w = loop rest (Some e) (after w' events)
    /\ Forall (fun ev => forall url answer, ev <> EvGet url answer) events.
Proof.
  intros H Hi.
  destruct (Z_lt_ge_dec attempt ceiling) as [Hlt | Hge].
  - eexists. split; [now apply retry_loop_again |].
    repeat constructor; discriminate.
  - eexists. split; [apply retry_loop_exhausted; auto; lia |].
    repeat constructor; discriminate.
Qed.

End RetryFacts.

Lemma py_range_length (lo hi : Z) :
  List.length (py_range lo hi) = Z.to_nat (hi - lo).
Proof. unfold py_range. now rewrite length_map, length_seq. Qed.

(** C2. With max_attempts=3, delay=1.0 and exponential backoff, an operation
    that raises a transport exception on each of its attempts is run exactly
    three times: once in the initial world, once after the warning and a
    wait of 1 second, once after the warning and a further wait of 2
    seconds; the exception of the third run is then raised as it is, after
    the error log and with no further wait. *)
Theorem retry_three_attempts {A : Type} (func : M A)
    (w0 w1 w2 w3 : world) (e1 e2 e3 : exn) :
  func w0 = (Raise e1, w1) ->
  isinstance e1 transport_errors = true ->
  func (after w1 [EvLog WARNING (LogRetry 1 3 e1 1); EvSleep 1]) = (Raise e2, w2) ->
  isinstance e2 transport_errors = true ->
  func (after w2 [EvLog WARNING (LogRetry 2 3 e2 2); EvSleep 2]) = (Raise e3, w3) ->
  isinstance e3 transport_errors = true ->
  retry (Some 3) (Some 1%Q) transport_errors true func w0
  = (Raise e3, after w3 [EvLog ERROR (LogExhausted e3)]).
Proof.
  intros H1 T1 H2 T2 H3 T3.
  unfold retry.
  change (py_range 1 (_max_attempts (Some 3) + 1)) with [1; 2; 3].
  rewrite (retry_loop_again _ _ _ _ _ 1 [2; 3] None w0 w1 e1 H1 T1) by reflexivity.
  change (wait_time (Some 1%Q) true 1) with 1%Q.
  change (_max_attempts (Some 3)) with 3.
  rewrite (retry_loop_again _ _ _ _ _ 2 [3] (Some e1) _ w2 e2 H2 T2) by reflexivity.
  change (wait_time (Some 1%Q) true 2) with 2%Q.
  change (_max_attempts (Some 3)) with 3.
  rewrite (retry_loop_exhausted _ _ _ _ _ 3 [] (Some e2) _ w3 e3 H3 T3)
    by (cbv; discriminate).
  reflexivity.
Qed.

(** ** Coroutines that return *)

Lemma bind_Return_inv {A B : Type} (m : M A) (k : A -> M B)
    (w w' : world) (b : B) :
  bind m k w = (Return b, w') ->
  exists a w1, m w = (Return a, w1) /\ k a w1 = (Return b, w').
Proof.
  unfold bind. destruct (m w) as [[a | e] w1]; intros H.
  - now exists a, w1.
  - discriminate.
Qed.

(** One step back through a [bind] that returned, by the inversion lemma
    [inv]: the first part returned [a] in a world [w], and [H] is left
    about the second part. *)
Ltac through_bind inv H :=
  let a := fresh "a" in
  let w := fresh "w" in
  let Hm := fresh "Hm" in
  apply inv in H; destruct H as (a & w & Hm & H).

(** A goal about a coroutine written with [bind], taken apart: [step]
    applies the rule for [bind], [leaf] closes the goals about the parts,
    and a [match] is decided by cases on what it inspects. *)
Ltac by_parts step leaf :=
  unfold log, sleep;
  repeat first
    [ leaf
    | cbv zeta; step; [| intros ?]
    | match goal with
      | |- _ (match ?x with _ => _ end) => destruct x
      end ].

(** ** close *)

(** C9. [close] never raises.  On a client whose connection resource was
    never opened, or is closed already, it changes nothing.  A session that
    is open is closed: closing it is the one effect the call adds to the
    trace, and the client holds no session afterwards.  A second [close]
    right after the first changes nothing, so that two calls in a row leave
    the world one call leaves; and after it the connection resource is
    released. *)
Theorem close_idempotent (w : world) :
  exists w1,
    close w = (Return tt, w1)
    /\ close w1 = (Return tt, w1)
    /\ bind close (fun _ => close) w = close w
    /\ released (self w1)
    /\ (_session (self w) = None -> w1 = w)
    /\ (forall s, _session (self w) = Some s -> closed s = true -> w1 = w)
    /\ (forall s, _session (self w) = Some s -> closed s = false ->
        w1 = {| self := set_session (self w) None;
                gets := gets w;
                trace := trace w ++ [EvSessionClose] |}).
Proof.
  destruct w as [c n t].
  unfold close, bind, get_self, released. simpl.
  destruct (_session c) as [s |] eqn:Hs; [destruct (closed s) eqn:Hc |]; simpl.
  - exists {| self := c; gets := n; trace := t |}. simpl. rewrite Hs, Hc. simpl.
    repeat (split; [solve [reflexivity | discriminate] |]).
    intros s0 H0 Hopen. inversion H0; subst. congruence.
  - eexists.
    split; [reflexivity |]. simpl.
    split; [reflexivity | split; [reflexivity | split; [exact I |]]].
    split; [discriminate | split; [| reflexivity]].
    intros s0 H0 Hclosed. inversion H0; subst. congruence.
  - exists {| self := c; gets := n; trace := t |}. simpl. rewrite Hs.
    repeat (split; [solve [reflexivity | discriminate | exact I] |]).
    discriminate.
Qed.

(** ** The query string *)

Lemma query_parts_fold (params : dict) (parts : list string) :
  fold_left
    (fun parts kv =>
       if is_none (snd kv) then parts
       else (parts ++ [(fst kv ++ "=" ++ py_str (snd kv))%string])%list)
    params parts
  = (parts ++ map (fun kv => (fst kv ++ "=" ++ py_str (snd kv))%string)
                  (filter (fun kv => negb (is_none (snd kv))) params))%list.
Proof.
  revert parts.
  induction params as [| [k v] params IH]; intros parts; simpl.
  - now rewrite app_nil_r.
  - destruct (is_none v); simpl.
    + apply IH.
    + rewrite IH, <- app_assoc. reflexivity.
Qed.

Lemma query_parts_query_of (api : string) (params : dict) :
  query_parts api params = query_of api params.
Proof. unfold query_parts, query_of, rendered. now rewrite query_parts_fold. Qed.

Lemma get_phone_params_filters (token : pyval) (sid : Z)
    (carrier province phone_type : option Z)
    (prefix exclude_prefix uid author : option string) :
  get_phone_params token sid carrier province phone_type
    prefix exclude_prefix uid author
  = ([("token", token); ("sid", PInt sid)]
     ++ int_filter "operator" carrier
     ++ int_filter "province" province
     ++ int_filter "phone_type" phone_type
     ++ str_filter "prefix" prefix
     ++ str_filter "exclude_prefix" exclude_prefix
     ++ str_filter "uid" uid
     ++ str_filter "author" author)%list.
Proof.
  unfold get_phone_params, set_if_given, set_if_true, int_filter, str_filter.
  destruct carrier, province, phone_type; simpl;
    destruct prefix as [prefix |]; try destruct (nonempty prefix); simpl;
    destruct exclude_prefix as [exclude |]; try destruct (nonempty exclude); simpl;
    destruct uid as [uid |]; try destruct (nonempty uid); simpl;
    destruct author as [author |]; try destruct (nonempty author); reflexivity.
Qed.

Lemma query_of_app (api : string) (params more : dict) :
  (forall kv, In kv more -> is_none (snd kv) = false) ->
  query_of api (params ++ more)%list
  = (query_of api params ++ rendered more)%list.
Proof.
  intros Hmore. unfold query_of, rendered.
  rewrite filter_app, map_app. simpl. do 3 f_equal.
  induction more as [| kv more IH]; simpl; [reflexivity |].
  rewrite (Hmore kv) by now left. simpl.
  f_equal. apply IH. intros kv' Hin. apply Hmore. now right.
Qed.

Lemma int_filter_given (key : string) (value : option Z) (kv : string * pyval) :
  In kv (int_filter key value) -> is_none (snd kv) = false.
Proof.
  destruct value; simpl; [| intros []].
  intros [<- | []]. reflexivity.
Qed.

Lemma str_filter_given (key : string) (value : option string) (kv : string * pyval) :
  In kv (str_filter key value) -> is_none (snd kv) = false.
Proof.
  destruct value as [s |]; simpl; [| intros []].
  destruct (nonempty s); simpl; [| intros []].
  intros [<- | []]. reflexivity.
Qed.

(** ** The three operations that answer with a boolean *)


Lemma dict_get_omitted (data : dict) (key : string) (default : pyval) :
  dict_mem data key = false -> dict_get data key default = default.
Proof.
  unfold dict_mem.
  induction data as [| [k v] data IH]; simpl; [reflexivity |].
  destruct (k =? key)%string; simpl; [discriminate | exact IH].
Qed.

Section RetryReturns.

Context {A : Type}.
Variable max_attempts : option Z.
Variable delay : option Q.
Variable exceptions : list exc_class.
Variable exponential_backoff : bool.
Variable func : M A.

(** A decorated coroutine returns what one of its attempts returned, in
    the world that attempt left. *)
Lemma retry_loop_returns (attempts : list Z) (last : option exn)
    (w w' : world) (a : A) :
  retry_loop max_attempts delay exceptions exponential_backoff func attempts last w
  = (Return a, w') ->
  exists w0, func w0 = (Return a, w').
Proof.
  revert last w.
  induction attempts as [| attempt rest IH]; intros last w H.
  - simpl in H. destruct last; discriminate.
  - destruct (func w) as [[a1 | e] w1] eqn:Hf.
    + rewrite (retry_loop_return _ _ _ _ _ _ _ _ _ _ _ Hf) in H.
      inversion H; subst. now exists w.
    + destruct (isinstance e exceptions) eqn:Hi.
      * destruct (retry_loop_caught max_attempts delay exceptions
                    exponential_backoff func attempt rest last w w1 e Hf Hi)
          as (events & Hloop & _).
        rewrite Hloop in H. now apply IH in H.
      * rewrite (retry_loop_propagate _ _ _ _ _ _ _ _ _ _ _ Hf Hi) in H.
        discriminate.
Qed.

End RetryReturns.



(** ** login *)

Lemma ensure_session_ensured (w : world) :
  exists s,
    _ensure_session w
    = (Return s, {| self := ensured (self w); gets := gets w;
                    trace := trace w ++ ensure_events (self w) |}).
Proof.
  unfold _ensure_session, ensured, ensure_events, bind, get_self.
  destruct w as [c n t]; simpl.
  destruct (_session c) as [s |].
  - destruct (closed s).
    + eexists. reflexivity.
    + exists s. unfold ret. now rewrite app_nil_r.
  - eexists. reflexivity.
Qed.


Lemma username_ensured (c : client) : _username (ensured c) = _username c.
Proof.
  unfold ensured.
  destruct (_session c) as [s |]; [destruct (closed s) |]; reflexivity.
Qed.

Lemma password_ensured (c : client) : _password (ensured c) = _password c.
Proof.
  unfold ensured.
  destruct (_session c) as [s |]; [destruct (closed s) |]; reflexivity.
Qed.

Lemma token_ensured (c : client) : _token (ensured c) = _token c.
Proof.
  unfold ensured.
  destruct (_session c) as [s |]; [destruct (closed s) |]; reflexivity.
Qed.

Lemma login_body_empty_credentials (w : world) :
  _username (self w) = "" \/ _password (self w) = "" ->
  login_body w = (Raise empty_credentials_error, w).
Proof.
  intros Hempty. unfold login_body, bind, get_self, nonempty.
  destruct Hempty as [-> | ->]; simpl.
  - reflexivity.
  - now rewrite orb_true_r.
Qed.






(** C7 as the code has it.  A login call with an empty username or an
    empty password raises without any effect: the client, the request
    counter and the trace are as before, so no connection resource is
    touched, no request is issued and no wait occurs.  With a retry ceiling
    of at least 1 the exception is the AuthenticationError of the
    credential check. *)
Theorem login_empty_credentials (w : world) :
  _username (self w) = "" \/ _password (self w) = "" ->
  exists e,
    login w = (Raise e, w)
    /\ (1 <= Config.max_retries settings ->
        e = HaoZhuError AuthenticationError "用户名和密码不能为空" None).
Proof.
  intros Hempty.
  apply login_body_empty_credentials in Hempty.
  unfold login, retry.
  destruct (py_range 1 (_max_attempts None + 1)) as [| attempt rest] eqn:Hrange.
  - eexists. split; [reflexivity |].
    intros Hceiling.
    apply (f_equal (@List.length Z)) in Hrange.
    rewrite py_range_length in Hrange.
    unfold _max_attempts, int_or in Hrange. simpl in Hrange. lia.
  - exists empty_credentials_error. split; [| reflexivity].
    apply retry_loop_propagate; [exact Hempty | reflexivity].
Qed.

(** ** The held token *)

Lemma keeps_ret {A : Type} (a : A) : keeps_token (ret a).
Proof. intros w r w' H. now inversion H. Qed.


Lemma keeps_emit (ev : event) : keeps_token (emit ev).
Proof. intros w r w' H. now inversion H. Qed.

Lemma keeps_get_self : keeps_token get_self.
Proof. intros w r w' H. now inversion H. Qed.

Lemma keeps_bind {A B : Type} (m : M A) (k : A -> M B) :
  keeps_token m -> (forall a, keeps_token (k a)) -> keeps_token (bind m k).
Proof.
  intros Hm Hk w r w' H. unfold bind in H.
  destruct (m w) as [[a | e] w1] eqn:Hmw.
  - rewrite (Hk a _ _ _ H). exact (Hm _ _ _ Hmw).
  - inversion H; subst. exact (Hm _ _ _ Hmw).
Qed.

Lemma keeps_when (b : bool) (m : M unit) : keeps_token m -> keeps_token (when b m).
Proof. destruct b; simpl; auto using keeps_ret. Qed.

Lemma keeps_ensure_session : keeps_token _ensure_session.
Proof.
  intros w r w' H.
  destruct (ensure_session_ensured w) as [s Hs].
  rewrite Hs in H. inversion H; subst. simpl. apply token_ensured.
Qed.

Lemma keeps_http_get (url : string) : keeps_token (http_get url).
Proof.
  intros w r w' H. unfold http_get in H.
  destruct (remote (gets w) url); now inversion H.
Qed.



Lemma unless_of_keeps {A : Type} (excused : outcome A -> Prop) (m : M A) :
  keeps_token m -> keeps_token_unless excused m.
Proof. intros Hm w r w' H. right. exact (Hm _ _ _ H). Qed.

Lemma unless_bind {A B : Type} (excused : outcome B -> Prop)
    (m : M A) (k : A -> M B) :
  keeps_token m ->
  (forall a, keeps_token_unless excused (k a)) ->
  keeps_token_unless excused (bind m k).
Proof.
  intros Hm Hk w r w' H. unfold bind in H.
  destruct (m w) as [[a | e] w1] eqn:Hmw.
  - destruct (Hk a _ _ _ H) as [Hex | Heq]; [now left | right].
    rewrite Heq. exact (Hm _ _ _ Hmw).
  - inversion H; subst. right. exact (Hm _ _ _ Hmw).
Qed.

(** The loop changes the token only where an attempt does. *)
Lemma retry_loop_keeps_unless {A : Type} (max_attempts : option Z)
    (delay : option Q) (exceptions : list exc_class) (exponential_backoff : bool)
    (func : M A) (excused : outcome A -> Prop) :
  (forall e, excused (Raise e) -> isinstance e exceptions = false) ->
  keeps_token_unless excused func ->
  forall (attempts : list Z) (last : option exn),
    keeps_token_unless excused
      (retry_loop max_attempts delay exceptions exponential_backoff func
         attempts last).
Proof.
  intros excused_not_caught func_keeps attempts.
  induction attempts as [| attempt rest IH]; intros last w r w' H.
  - simpl in H. right. destruct last; now inversion H.
  - simpl in H.
    destruct (func w) as [[a | e] w1] eqn:Hf.
    + inversion H; subst. exact (func_keeps _ _ _ Hf).
    + destruct (isinstance e exceptions) eqn:Hi.
      * destruct (func_keeps _ _ _ Hf) as [Hex | Heq].
        { apply excused_not_caught in Hex. congruence. }
        assert (Hrest : keeps_token_unless excused
                  ((if attempt <? _max_attempts max_attempts
                    then log WARNING
                           (LogRetry attempt (_max_attempts max_attempts) e
                              (wait_time delay exponential_backoff attempt)) ;;;
                         sleep (wait_time delay exponential_backoff attempt)
                    else log ERROR (LogExhausted e)) ;;;
                   retry_loop max_attempts delay exceptions exponential_backoff
                     func rest (Some e))).
        { apply unless_bind; [| intros _; apply IH].
          destruct (attempt <? _max_attempts max_attempts);
            unfold log, sleep; auto using keeps_bind, keeps_emit. }
        destruct (Hrest _ _ _ H) as [Hex | Heq']; [now left | right].
        now rewrite Heq'.
      * inversion H; subst. exact (func_keeps _ _ _ Hf).
Qed.

Lemma retry_keeps {A : Type} (max_attempts : option Z) (delay : option Q)
    (exceptions : list exc_class) (exponential_backoff : bool) (func : M A) :
  keeps_token func ->
  keeps_token (retry max_attempts delay exceptions exponential_backoff func).
Proof.
  intros Hfunc w r w' H. unfold retry in H.
  apply (retry_loop_keeps_unless max_attempts delay exceptions exponential_backoff
           func (fun _ => False)) in H.
  - now destruct H.
  - intros e [].
  - now apply unless_of_keeps.
Qed.

Lemma keeps_request (api : string) (params : dict) : keeps_token (_request api params).
Proof.
  apply retry_keeps. unfold _request_body.
  by_parts ltac:(apply keeps_bind)
           ltac:(solve [auto using keeps_ret, keeps_emit, keeps_get_self, keeps_when,
                          keeps_ensure_session, keeps_http_get]).
Qed.



Lemma login_body_returns (w w' : world) (t : pyval) :
  login_body w = (Return t, w') ->
  truthy (_token (self w')) = true /\ t = _token (self w').
Proof.
  unfold login_body. intros H.
  through_bind @bind_Return_inv H.
  destruct (_ || _); [discriminate |].
  do 5 through_bind @bind_Return_inv H.
  unfold bind, get_self, put_self, log, emit, ret, raise in H. simpl in H.
  destruct (truthy (dict_get a2 "token" (PStr ""))) eqn:Ht; inversion H; subst.
  simpl. now split.
Qed.

Lemma login_returns (w w' : world) (t : pyval) :
  login w = (Return t, w') ->
  truthy (_token (self w')) = true /\ t = _token (self w').
Proof.
  unfold login, retry. intros H.
  apply retry_loop_returns in H. destruct H as [w0 H].
  now apply login_body_returns in H.
Qed.

Lemma ensure_token_held (w : world) :
  truthy (_token (self w)) = true ->
  _ensure_token w = (Return (_token (self w)), w).
Proof.
  intros Hheld. unfold _ensure_token, bind, get_self. now rewrite Hheld.
Qed.

Lemma ensure_token_absent (w : world) :
  truthy (_token (self w)) = false ->
  _ensure_token w
  = match login w with
    | (Return _, w1) => (Return (_token (self w1)), w1)
    | (Raise e, w1) => (Raise e, w1)
    end.
Proof.
  intros Habsent. unfold _ensure_token, bind, get_self. rewrite Habsent. simpl.
  now destruct (login w) as [[t | e] w1].
Qed.

Lemma discard_inv {A : Type} (m : M A) (w w' : world) (r : outcome unit) :
  discard m w = (r, w') -> exists r0, m w = (r0, w') /\ raised r0 = raised r.
Proof.
  unfold discard, bind. destruct (m w) as [[a | e] w1]; intros H;
    inversion H; subst; eexists; split; reflexivity.
Qed.





(** ** The defaults of a phone number *)



Lemma build_url_ensured (c : client) (api : string) (params : dict) :
  _build_url (ensured c) api params = _build_url c api params.
Proof.
  unfold _build_url, ensured.
  destruct (_session c) as [s |]; [destruct (closed s) |]; reflexivity.
Qed.







(** ** Relations every run of a coroutine keeps *)

Section Preserves.

Variable R : world -> world -> Prop.
Hypothesis R_refl : forall w, R w w.
Hypothesis R_trans : forall w1 w2 w3, R w1 w2 -> R w2 w3 -> R w1 w3.

Lemma preserves_same_world {A : Type} (m : M A) :
  (forall w r w', m w = (r, w') -> w' = w) -> preserves R m.
Proof. intros Hm w r w' H. apply Hm in H. subst. apply R_refl. Qed.

Lemma preserves_ret {A : Type} (a : A) : preserves R (ret a).
Proof. apply preserves_same_world. intros w r w' H. now inversion H. Qed.

Lemma preserves_raise {A : Type} (e : exn) : preserves R (@raise A e).
Proof. apply preserves_same_world. intros w r w' H. now inversion H. Qed.

Lemma preserves_bind {A B : Type} (m : M A) (k : A -> M B) :
  preserves R m -> (forall a, preserves R (k a)) -> preserves R (bind m k).
Proof.
  intros Hm Hk w r w' H. unfold bind in H.
  destruct (m w) as [[a | e] w1] eqn:Hmw.
  - exact (R_trans _ _ _ (Hm _ _ _ Hmw) (Hk a _ _ _ H)).
  - inversion H; subst. exact (Hm _ _ _ Hmw).
Qed.

Hypothesis R_event :
  forall w ev, (forall url answer, ev <> EvGet url answer) -> R w (after w [ev]).

(** The decorated coroutine keeps what every attempt keeps. *)
Lemma preserves_retry {A : Type} (max_attempts : option Z) (delay : option Q)
    (exceptions : list exc_class) (exponential_backoff : bool) (func : M A) :
  preserves R func ->
  preserves R (retry max_attempts delay exceptions exponential_backoff func).
Proof.
  intros Hfunc. unfold retry.
  generalize (@None exn) as last.
  induction (py_range 1 (_max_attempts max_attempts + 1)) as [| attempt rest IH];
    intros last w r w' H.
  - simpl in H. destruct last; inversion H; subst; apply R_refl.
  - simpl in H.
    destruct (func w) as [[a | e] w1] eqn:Hf.
    + inversion H; subst. exact (Hfunc _ _ _ Hf).
    + destruct (isinstance e exceptions).
      * apply (R_trans _ w1); [exact (Hfunc _ _ _ Hf) |].
        revert H. apply preserves_bind; [| intros _; apply IH].
        assert (Hemit : forall level record, preserves R (log level record)).
        { intros level record w0 r0 w2 H0. inversion H0; subst.
          apply (R_event w0). discriminate. }
        assert (Hsleep : forall seconds, preserves R (sleep seconds)).
        { intros seconds w0 r0 w2 H0. inversion H0; subst.
          apply (R_event w0). discriminate. }
        destruct (attempt <? _max_attempts max_attempts);
          auto using preserves_bind.
      * inversion H; subst. exact (Hfunc _ _ _ Hf).
Qed.

End Preserves.

(** ** A failure envelope ends the operation *)

Lemma check_response_same_world (data : dict) (context : string)
    (w w' : world) (r : outcome unit) :
  _check_response data context w = (r, w') -> w' = w.
Proof.
  unfold _check_response.
  destruct (_ || _); [intros H; now inversion H |].
  destruct (dict_get data "msg" _); try (intros H; now inversion H).
  repeat match goal with
         | |- context [if ?b then raise _ else _] => destruct b
         end; intros H; now inversion H.
Qed.

(** Whatever its message, an envelope without a success code makes the
    classifier raise, and nothing the decorators catch. *)
Lemma check_response_rejects (data : dict) (context : string) (w : world) :
  is_success data = false ->
  exists e,
    _check_response data context w = (Raise e, w)
    /\ isinstance e transport_errors = false.
Proof.
  unfold is_success, envelope_code, _check_response. intros ->.
  destruct (dict_get data "msg" _);
    try (eexists; split; reflexivity).
  repeat match goal with
         | |- context [if ?b then raise _ else _] => destruct b
         end; eexists; split; reflexivity.
Qed.

Lemma clean_app (l1 l2 : list event) : clean l1 -> clean l2 -> clean (l1 ++ l2).
Proof. intros H1 H2. apply Forall_app. now split. Qed.

Lemma clean_no_request (events : list event) :
  Forall (fun ev => forall url answer, ev <> EvGet url answer) events -> clean events.
Proof.
  intros H. unfold clean. eapply Forall_impl; [| exact H].
  intros ev Hev. destruct ev as [| | url answer | |]; try reflexivity.
  now destruct (Hev url answer).
Qed.

Lemma clean_ensure (c : client) : clean (ensure_events c).
Proof.
  unfold ensure_events.
  destruct (_session c) as [s |]; [destruct (closed s) |];
    repeat constructor.
Qed.

Lemma clean_run_refl (w : world) : clean_run w w.
Proof. exists []. split; [now rewrite app_nil_r | constructor]. Qed.

Lemma clean_run_trans (w1 w2 w3 : world) :
  clean_run w1 w2 -> clean_run w2 w3 -> clean_run w1 w3.
Proof.
  intros (ev12 & Ht12 & Hc12) (ev23 & Ht23 & Hc23).
  exists (ev12 ++ ev23)%list. split.
  - now rewrite Ht23, Ht12, app_assoc.
  - now apply clean_app.
Qed.

Lemma clean_run_ret {A : Type} (a : A) : preserves clean_run (ret a).
Proof. apply preserves_ret, clean_run_refl. Qed.

Lemma clean_run_raise {A : Type} (e : exn) : preserves clean_run (@raise A e).
Proof. apply preserves_raise, clean_run_refl. Qed.

Lemma clean_run_bind {A B : Type} (m : M A) (k : A -> M B) :
  preserves clean_run m -> (forall a, preserves clean_run (k a)) ->
  preserves clean_run (bind m k).
Proof. apply preserves_bind, clean_run_trans. Qed.

Lemma clean_run_log (level : log_level_name) (record : log_record) :
  preserves clean_run (emit (EvLog level record)).
Proof.
  intros w r w' H. inversion H; subst.
  exists [EvLog level record]. split; [reflexivity | repeat constructor].
Qed.

Lemma clean_run_ensure_session : preserves clean_run _ensure_session.
Proof.
  intros w r w' H.
  destruct (ensure_session_ensured w) as [s Hs].
  rewrite Hs in H. inversion H; subst.
  exists (ensure_events (self w)). split; [reflexivity | apply clean_ensure].
Qed.

Lemma clean_run_close : preserves clean_run close.
Proof.
  intros w r w' H. unfold close, bind, get_self in H. simpl in H.
  destruct (_session (self w)) as [s |]; [destruct (closed s) |];
    inversion H; subst; try apply clean_run_refl.
  exists [EvSessionClose]. split; [reflexivity | repeat constructor].
Qed.

Lemma failure_last_after_clean {A : Type}
    (final : outcome A -> list event -> Prop) (r : outcome A)
    (l1 l2 : list event) :
  clean l1 -> failure_last final r l2 -> failure_last final r (l1 ++ l2).
Proof.
  intros H1 [H2 | (before & rest & -> & Hb & Hfinal)].
  - left. now apply clean_app.
  - right. exists (l1 ++ before)%list, rest.
    split; [now rewrite app_assoc | split; [now apply clean_app | exact Hfinal]].
Qed.

Lemma failure_last_weaken {A B : Type}
    (final : outcome A -> list event -> Prop)
    (final' : outcome B -> list event -> Prop)
    (r : outcome A) (r' : outcome B) (events : list event) :
  (forall rest, final r rest -> final' r' rest) ->
  failure_last final r events -> failure_last final' r' events.
Proof.
  intros Hweak [Hc | (before & rest & Heq & Hb & Hfinal)]; [now left | right].
  exists before, rest. auto.
Qed.

(** The loop adds what its attempts add: a failure envelope ends the
    attempt that received it with an outcome the loop hands on. *)
Lemma retry_loop_failure_last {A : Type} (max_attempts : option Z)
    (delay : option Q) (exponential_backoff : bool) (func : M A)
    (final : outcome A -> list event -> Prop) :
  (forall e rest, final (Raise e) rest -> isinstance e transport_errors = false) ->
  adds (failure_last final) func ->
  forall (attempts : list Z) (last : option exn),
    adds (failure_last final)
      (retry_loop max_attempts delay transport_errors exponential_backoff func
         attempts last).
Proof.
  intros Hfinal Hfunc attempts.
  induction attempts as [| attempt rest IH]; intros last w r w' H.
  - exists []. split; [| left; constructor].
    simpl in H. destruct last; inversion H; subst; now rewrite app_nil_r.
  - destruct (func w) as [[a | e] w1] eqn:Hf.
    + rewrite (retry_loop_return _ _ _ _ _ _ _ _ _ _ _ Hf) in H.
      inversion H; subst. exact (Hfunc _ _ _ Hf).
    + destruct (isinstance e transport_errors) eqn:Hi.
      * destruct (Hfunc _ _ _ Hf)
          as (ev1 & Ht1 & [Hc1 | (before & tail & _ & _ & Hfin)]);
          [| apply Hfinal in Hfin; congruence].
        destruct (retry_loop_caught max_attempts delay transport_errors
                    exponential_backoff func attempt rest last w w1 e Hf Hi)
          as (own & Hloop & Hown).
        rewrite Hloop in H. apply IH in H.
        destruct H as (ev2 & Ht2 & Hlast).
        exists (ev1 ++ own ++ ev2)%list. split.
        -- rewrite Ht2. simpl. rewrite Ht1. now rewrite <- !app_assoc.
        -- apply failure_last_after_clean; [exact Hc1 |].
           apply failure_last_after_clean; [now apply clean_no_request | exact Hlast].
      * rewrite (retry_loop_propagate _ _ _ _ _ _ _ _ _ _ _ Hf Hi) in H.
        inversion H; subst. exact (Hfunc _ _ _ Hf).
Qed.

(** An attempt of [_request]: its request is the last thing it does, but
    for the debug log of the answer. *)
Lemma request_body_adds (api : string) (params : dict) :
  adds (failure_last returned_failure) (_request_body api params).
Proof.
  intros w r w' H.
  destruct (ensure_session_ensured w) as [s Hs].
  unfold _request_body, bind, get_self in H. rewrite Hs in H. simpl in H.
  unfold http_get, when, log, emit, ret in H. simpl in H.
  pose proof (clean_ensure (self w)) as Hensure.
  destruct (Config.log_requests (_config (ensured (self w)))); simpl in H;
    match type of H with
    | context [remote ?n ?u] => destruct (remote n u) as [data | e] eqn:Hremote
    end; inversion H; subst; clear H;
    try (eexists; split; [rewrite <- ?app_assoc; reflexivity |];
         left; apply clean_app; [exact Hensure |];
         repeat constructor; fail);
    destruct (is_success data) eqn:Hok;
    (eexists; split; [rewrite <- ?app_assoc; reflexivity |]);
    try (left; apply clean_app; [exact Hensure |];
         repeat constructor; simpl; now rewrite Hok);
    right.
  - exists (ensure_events (self w) ++ [EvLog DEBUG (LogRequest (_build_url (ensured (self w)) api params))])%list.
    eexists. split; [now rewrite <- app_assoc |].
    split; [apply clean_app; [exact Hensure | repeat constructor] |].
    exists data. split; [reflexivity | split; [exact Hok |]].
    eexists. right. reflexivity.
  - exists (ensure_events (self w)). eexists. split; [reflexivity |].
    split; [exact Hensure |].
    exists data. split; [reflexivity | split; [exact Hok |]].
    eexists. left. reflexivity.
Qed.

Lemma request_adds (api : string) (params : dict) :
  adds (failure_last returned_failure) (_request api params).
Proof.
  unfold _request, retry.
  apply retry_loop_failure_last; [| apply request_body_adds].
  intros e rest (data & Hr & _). discriminate Hr.
Qed.

(** An attempt of [login]. *)
Lemma login_body_adds : adds (failure_last rejected) login_body.
Proof.
  intros w r w' H.
  destruct (ensure_session_ensured w) as [s Hs].
  pose proof (clean_ensure (self w)) as Hensure.
  unfold login_body, bind, get_self in H.
  destruct (_ || _).
  { inversion H; subst. exists []. split; [now rewrite app_nil_r | left; constructor]. }
  rewrite Hs in H. simpl in H.
  unfold http_get, when, log, emit, ret in H. simpl in H.
  destruct (Config.log_requests (_config (self w))); simpl in H;
    match type of H with
    | context [remote ?n ?u] => destruct (remote n u) as [data | e] eqn:Hremote
    end;
    try (inversion H; subst; clear H;
         eexists; split; [rewrite <- ?app_assoc; reflexivity |];
         left; apply clean_app; [exact Hensure |];
         repeat constructor; fail);
    destruct (is_success data) eqn:Hok.
  - (* logged, success envelope *)
    rewrite (check_response_success _ _ _ Hok) in H.
    unfold put_self, raise in H. simpl in H.
    destruct (truthy (dict_get data "token" (PStr ""))); simpl in H;
      inversion H; subst; clear H;
      (eexists; split; [rewrite <- ?app_assoc; reflexivity |]);
      left; (apply clean_app; [exact Hensure |]);
      repeat constructor; simpl; now rewrite Hok.
  - (* logged, failure envelope *)
    match type of H with
    | context [_check_response ?d ?c ?w1] =>
        destruct (check_response_rejects d c w1 Hok) as (e & Hcheck & He)
    end.
    rewrite Hcheck in H. inversion H; subst; clear H.
    eexists. split; [simpl; rewrite <- ?app_assoc; reflexivity |].
    right.
    exists (ensure_events (self w) ++ [EvLog DEBUG (LogRequest (login_url (self w)))])%list.
    eexists. split; [now rewrite <- app_assoc |].
    split; [apply clean_app; [exact Hensure | repeat constructor] |].
    split; [now exists e |].
    exists data. split; [exact Hok |]. eexists. right. reflexivity.
  - (* success envelope *)
    rewrite (check_response_success _ _ _ Hok) in H.
    unfold put_self, raise in H. simpl in H.
    destruct (truthy (dict_get data "token" (PStr ""))); simpl in H;
      inversion H; subst; clear H;
      (eexists; split; [rewrite <- ?app_assoc; reflexivity |]);
      left; (apply clean_app; [exact Hensure |]);
      repeat constructor; simpl; now rewrite Hok.
  - (* failure envelope *)
    match type of H with
    | context [_check_response ?d ?c ?w1] =>
        destruct (check_response_rejects d c w1 Hok) as (e & Hcheck & He)
    end.
    rewrite Hcheck in H. inversion H; subst; clear H.
    eexists. split; [simpl; rewrite <- ?app_assoc; reflexivity |].
    right.
    exists (ensure_events (self w)). eexists. split; [reflexivity |].
    split; [exact Hensure |].
    split; [now exists e |].
    exists data. split; [exact Hok |]. eexists. left. reflexivity.
Qed.

Lemma login_adds : adds (failure_last rejected) login.
Proof.
  unfold login, retry.
  apply retry_loop_failure_last; [| apply login_body_adds].
  intros e rest [(e' & Hr & He) _]. now inversion Hr; subst.
Qed.

Lemma rejected_raised (r : outcome pyval) (rest : list event) :
  rejected r rest -> raised_on_failure r rest.
Proof.
  intros [(e & -> & _) Hdata]. split; [discriminate | exact Hdata].
Qed.

(** [_ensure_token]: when it returns, no failure envelope was received. *)
Lemma ensure_token_adds :
  adds (fun r events =>
          match r with
          | Return _ => clean events
          | Raise _ => failure_last raised_on_failure r events
          end)
       _ensure_token.
Proof.
  intros w r w' H.
  destruct (truthy (_token (self w))) eqn:Hheld.
  - rewrite (ensure_token_held w Hheld) in H. inversion H; subst.
    exists []. split; [now rewrite app_nil_r | constructor].
  - rewrite (ensure_token_absent w Hheld) in H.
    destruct (login w) as [[t | e] w1] eqn:Hlogin;
      destruct (login_adds _ _ _ Hlogin) as (events & Htrace & Hlast);
      inversion H; subst; exists events; (split; [exact Htrace |]).
    + destruct Hlast as [Hc | (before & rest & _ & _ & [(e & Hr & _) _])];
        [exact Hc | discriminate Hr].
    + eapply failure_last_weaken; [| exact Hlast].
      intros rest Hrest. apply rejected_raised in Hrest.
      destruct Hrest as [_ Hdata]. split; [discriminate | exact Hdata].
Qed.

(** The shape of every domain operation after its token: the request, the
    check of the envelope, and a rest that makes no request. *)
Lemma request_then_check {A : Type} (api : string) (params : dict)
    (context : string) (rest : dict -> M A) :
  (forall data, preserves clean_run (rest data)) ->
  adds (failure_last raised_on_failure)
    (data <- _request api params ;;
     _check_response data context ;;; rest data).
Proof.
  intros Hrest w r w' H. unfold bind in H.
  destruct (_request api params w) as [[data | e] w1] eqn:Hreq;
    destruct (request_adds _ _ _ _ _ Hreq) as (ev1 & Ht1 & Hlast1).
  - destruct (is_success data) eqn:Hok.
    + rewrite (check_response_success _ _ _ Hok) in H.
      apply Hrest in H. destruct H as (ev2 & Ht2 & Hc2).
      exists (ev1 ++ ev2)%list. split; [now rewrite Ht2, Ht1, app_assoc |].
      left. apply clean_app; [| exact Hc2].
      destruct Hlast1 as [Hc | (before & tail & _ & _ & (d & Hd & Hno & _))];
        [exact Hc |].
      inversion Hd; subst. congruence.
    + destruct (check_response_rejects data context w1 Hok) as (e & Hcheck & _).
      rewrite Hcheck in H. inversion H; subst.
      exists ev1. split; [exact Ht1 |].
      eapply failure_last_weaken; [| exact Hlast1].
      intros tail (d & _ & Hd). split; [discriminate | now exists d].
  - inversion H; subst. exists ev1. split; [exact Ht1 |].
    destruct Hlast1 as [Hc | (before & tail & _ & _ & (d & Hd & _))];
      [now left | discriminate Hd].
Qed.

Lemma after_ensure_token {A : Type} (k : pyval -> M A) :
  (forall token, adds (failure_last raised_on_failure) (k token)) ->
  adds (failure_last raised_on_failure) (bind _ensure_token k).
Proof.
  intros Hk w r w' H. unfold bind in H.
  destruct (_ensure_token w) as [[token | e] w1] eqn:Hensure;
    destruct (ensure_token_adds _ _ _ Hensure) as (ev1 & Ht1 & H1).
  - destruct (Hk token _ _ _ H) as (ev2 & Ht2 & H2).
    exists (ev1 ++ ev2)%list. split; [now rewrite Ht2, Ht1, app_assoc |].
    now apply failure_last_after_clean.
  - inversion H; subst. exists ev1. split; [exact Ht1 |].
    eapply failure_last_weaken; [| exact H1]. auto.
Qed.

Lemma discard_adds {A : Type} (m : M A) :
  adds (failure_last raised_on_failure) m ->
  adds (failure_last raised_on_failure) (discard m).
Proof.
  intros Hm w r w' H. apply discard_inv in H.
  destruct H as (r0 & H & Hr).
  destruct (Hm _ _ _ H) as (events & Htrace & Hlast).
  exists events. split; [exact Htrace |].
  eapply failure_last_weaken; [| exact Hlast].
  intros rest [Hraised Hdata]. split; [now rewrite <- Hr | exact Hdata].
Qed.

Lemma clean_adds {A : Type} (m : M A) :
  preserves clean_run m -> adds (failure_last raised_on_failure) m.
Proof.
  intros Hm w r w' H. destruct (Hm _ _ _ H) as (events & Htrace & Hc).
  exists events. split; [exact Htrace | now left].
Qed.

Lemma perform_adds (op : operation) :
  adds (failure_last raised_on_failure) (perform op).
Proof.
  destruct op; simpl.
  1: { apply discard_adds. intros w r w' H.
       destruct (login_adds _ _ _ H) as (events & Htrace & Hlast).
       exists events. split; [exact Htrace |].
       eapply failure_last_weaken; [| exact Hlast].
       intros rest. apply rejected_raised. }
  1-7: apply discard_adds;
       unfold get_account_info, get_phone, get_phone_specific, get_message,
         release_phone, release_all, blacklist_phone;
       apply after_ensure_token; intros token; cbv zeta;
       apply request_then_check; intros data; unfold PhoneNumber_new;
       by_parts ltac:(apply clean_run_bind)
                ltac:(solve [auto using clean_run_ret, clean_run_raise, clean_run_log]).
  all: apply clean_adds; unfold __aexit__, __aenter__;
       first [ exact clean_run_close
             | by_parts ltac:(apply clean_run_bind)
                        ltac:(solve [auto using clean_run_ret,
                                       clean_run_ensure_session]) ].
Qed.

(** C4. In the loop of both decorators, which catch aiohttp.ClientError and
    TimeoutError only, an attempt that raises an error of the taxonomy, or
    any exception that is neither a ClientError nor a TimeoutError, ends
    the run at once, at whatever attempt it happens: the error goes to the
    caller and the world is the one the attempt left, so no wait, no log
    and no further attempt follows; an attempt after which the loop goes on
    raised a ClientError or a TimeoutError.  And in every run of every
    operation of the client, an envelope without a success code, if one is
    received at all, is the last thing that happens but for the debug log
    of the answer: every request before it was answered by a transport
    failure or by a success envelope, nothing is requested, waited for or
    retried after it, and the operation ends by raising. *)
Theorem application_errors_not_retried :
  (forall (A : Type) (max_attempts : option Z) (delay : option Q)
          (exponential_backoff : bool) (func : M A)
          (attempt : Z) (rest : list Z) (last : option exn)
          (w w' : world) (e : exn),
      func w = (Raise e, w') ->
      ((exists kind message code, e = HaoZhuError kind message code)
       \/ isinstance e transport_errors = false ->
       retry_loop max_attempts delay transport_errors exponential_backoff func
         (attempt :: rest) last w = (Raise e, w'))
      /\ (retry_loop max_attempts delay transport_errors exponential_backoff func
            (attempt :: rest) last w <> (Raise e, w') ->
          exists info, e = ClientError info \/ e = TimeoutError info))
  /\ (forall (op : operation) (w w' : world) (r : outcome unit),
      perform op w = (r, w') ->
      exists events,
        trace w' = (trace w ++ events)%list
        /\ failure_last raised_on_failure r events).
Proof.
  split.
  - intros A max_attempts delay exponential_backoff func attempt rest last w w' e Hfunc.
    split.
    + intros [(kind & message & code & ->) | Hi];
        now apply retry_loop_propagate.
    + intros Hgoes.
      apply isinstance_transport.
      destruct (isinstance e transport_errors) eqn:Hi; [reflexivity |].
      exfalso. apply Hgoes. now apply retry_loop_propagate.
  - intros op w w' r. exact (perform_adds op w r w').
Qed.

(** ** The requests of an operation *)

Lemma sends_only_refl (base url : string) (w : world) : sends_only base url w w.
Proof.
  intros Hbase. split; [exact Hbase |].
  exists []. split; [now rewrite app_nil_r | constructor].
Qed.

Lemma requests_app (l1 l2 : list event) :
  requests (l1 ++ l2) = (requests l1 ++ requests l2)%list.
Proof. unfold requests. apply flat_map_app. Qed.

Lemma sends_only_trans (base url : string) (w1 w2 w3 : world) :
  sends_only base url w1 w2 -> sends_only base url w2 w3 ->
  sends_only base url w1 w3.
Proof.
  intros H12 H23 Hbase.
  destruct (H12 Hbase) as (Hbase2 & ev12 & Ht12 & Hf12).
  destruct (H23 Hbase2) as (Hbase3 & ev23 & Ht23 & Hf23).
  split; [exact Hbase3 |].
  exists (ev12 ++ ev23)%list. split.
  - now rewrite Ht23, Ht12, app_assoc.
  - rewrite requests_app. apply Forall_app. now split.
Qed.

Lemma sends_only_events (base url : string) (w w' : world) (events : list event) :
  _server (self w') = _server (self w) ->
  trace w' = (trace w ++ events)%list ->
  Forall (eq url) (requests events) ->
  sends_only base url w w'.
Proof.
  intros Hserver Htrace Hurls Hbase. split; [congruence |].
  now exists events.
Qed.

Lemma server_ensured (c : client) : _server (ensured c) = _server c.
Proof.
  unfold ensured.
  destruct (_session c) as [s |]; [destruct (closed s) |]; reflexivity.
Qed.

Lemma requests_ensure (c : client) : requests (ensure_events c) = [].
Proof.
  unfold ensure_events.
  destruct (_session c) as [s |]; [destruct (closed s) |]; reflexivity.
Qed.

(** An attempt of [_request] sends one request, to the URL built from the
    server, the api name and the parameters. *)
Lemma request_body_sends (api : string) (params : dict) (base : string) :
  preserves
    (sends_only base (base ++ "/sms/?" ++ String.concat "&" (query_parts api params)))
    (_request_body api params).
Proof.
  intros w r w' H Hbase.
  destruct (ensure_session_ensured w) as [s Hs].
  unfold _request_body, bind, get_self in H. rewrite Hs in H. simpl in H.
  unfold _build_url in H. rewrite server_ensured, Hbase in H.
  unfold http_get, when, log, emit, ret in H. simpl in H.
  destruct (Config.log_requests (_config (ensured (self w)))); simpl in H;
    match type of H with
    | context [remote ?n ?u] => destruct (remote n u)
    end; inversion H; subst; simpl;
    (split; [now rewrite server_ensured |]);
    eexists; (split; [rewrite <- ?app_assoc; reflexivity |]);
    rewrite ?requests_app, requests_ensure; simpl; repeat constructor.
Qed.

Lemma request_sends (api : string) (params : dict) (base : string) :
  preserves
    (sends_only base (base ++ "/sms/?" ++ String.concat "&" (query_parts api params)))
    (_request api params).
Proof.
  unfold _request.
  apply preserves_retry.
  - apply sends_only_refl.
  - apply sends_only_trans.
  - intros w ev Hev.
    apply (sends_only_events _ _ _ _ [ev]); [reflexivity | reflexivity |].
    destruct ev as [total | | url' answer | seconds | level record];
      try (now constructor).
    now destruct (Hev url' answer).
  - apply request_body_sends.
Qed.

(** With a token held, [get_phone] sends its requests to the URL built
    from the parameters it assembled, and to no other. *)
Lemma get_phone_sends (sid : Z) (carrier province phone_type : option Z)
    (prefix exclude_prefix uid author : option string)
    (w w' : world) (r : outcome PhoneNumber.t) :
  truthy (_token (self w)) = true ->
  get_phone sid carrier province phone_type prefix exclude_prefix uid author w
  = (r, w') ->
  exists events,
    trace w' = (trace w ++ events)%list
    /\ Forall (eq (_build_url (self w) "getPhone"
                     (get_phone_params (_token (self w)) sid carrier province
                        phone_type prefix exclude_prefix uid author)))
         (requests events).
Proof.
  intros Hheld H.
  unfold get_phone in H. unfold bind at 1 in H.
  rewrite (ensure_token_held w Hheld) in H.
  cbv zeta in H.
  assert (Hrun : sends_only (_server (self w))
                   (_build_url (self w) "getPhone"
                      (get_phone_params (_token (self w)) sid carrier province
                         phone_type prefix exclude_prefix uid author)) w w').
  { revert H. apply preserves_bind;
      [apply sends_only_trans | apply request_sends | intros data].
    apply preserves_bind; [apply sends_only_trans | | intros _].
    - apply preserves_same_world; [apply sends_only_refl |].
      intros w0 r0 w1. apply check_response_same_world.
    - unfold PhoneNumber_new.
      repeat match goal with
             | |- preserves _ (match ?x with _ => _ end) => destruct x
             end;
        first [ apply preserves_ret | apply preserves_raise ];
        apply sends_only_refl. }
  now destruct (Hrun eq_refl) as [_ Hevents].
Qed.

(** C5. The URL is the server, "/sms/?" and the query parts joined by "&";
    the query parts are api=<name> first, then key=value for each parameter
    whose value is not None, in the order of the mapping, a None value
    leaving no part at all.  For [get_phone] the parts are api=getPhone,
    the token and the project id, then one part for each filter that was
    given (an int that is not None, a string that is neither None nor
    empty), in the order operator, province, phone_type, prefix,
    exclude_prefix, uid, author; a filter that was not given leaves no
    part; and with a token held every request of a [get_phone] call goes
    to the URL built from these parts. *)
Theorem build_url_parameters (c : client) (api : string) (params : dict) :
  _build_url c api params
  = (_server c ++ "/sms/?" ++ String.concat "&" (query_of api params))%string
  /\ (forall (token : pyval) (sid : Z) (carrier province phone_type : option Z)
             (prefix exclude_prefix uid author : option string),
      query_parts "getPhone"
        (get_phone_params token sid carrier province phone_type
           prefix exclude_prefix uid author)
      = (query_of "getPhone" [("token", token); ("sid", PInt sid)]
         ++ rendered (int_filter "operator" carrier)
         ++ rendered (int_filter "province" province)
         ++ rendered (int_filter "phone_type" phone_type)
         ++ rendered (str_filter "prefix" prefix)
         ++ rendered (str_filter "exclude_prefix" exclude_prefix)
         ++ rendered (str_filter "uid" uid)
         ++ rendered (str_filter "author" author))%list)
  /\ (forall (sid : Z) (carrier province phone_type : option Z)
             (prefix exclude_prefix uid author : option string)
             (w w' : world) (r : outcome PhoneNumber.t),
      truthy (_token (self w)) = true ->
      get_phone sid carrier province phone_type prefix exclude_prefix uid author w
      = (r, w') ->
      exists events,
        trace w' = (trace w ++ events)%list
        /\ Forall (eq (_build_url (self w) "getPhone"
                         (get_phone_params (_token (self w)) sid carrier province
                            phone_type prefix exclude_prefix uid author)))
             (requests events)).
Proof.
  split; [| split].
  - unfold _build_url. now rewrite query_parts_query_of.
  - intros.
    rewrite query_parts_query_of, get_phone_params_filters.
    rewrite query_of_app.
    + unfold rendered. now rewrite !map_app.
    + intros kv Hin.
      repeat (apply in_app_or in Hin; destruct Hin as [Hin | Hin]);
        eauto using int_filter_given, str_filter_given.
  - intros. eapply get_phone_sends; eassumption.
Qed.

(** * The rest of the client *)

(** ** The decorator at its edges *)

Lemma py_range_cons (lo hi : Z) :
  lo < hi -> py_range lo hi = lo :: py_range (lo + 1) hi.
Proof.
  intros H. unfold py_range.
  replace (Z.to_nat (hi - lo)) with (S (Z.to_nat (hi - (lo + 1)))) by lia.
  simpl. rewrite Z.add_0_r. f_equal.
  rewrite <- seq_shift, map_map. apply map_ext. intros i. lia.
Qed.

Lemma py_range_empty (lo hi : Z) : hi <= lo -> py_range lo hi = [].
Proof.
  intros H. unfold py_range.
  now replace (Z.to_nat (hi - lo)) with 0%nat by lia.
Qed.

Lemma held_bind {A : Type} (k : pyval -> M A) (w : world) :
  truthy (_token (self w)) = true ->
  bind _ensure_token k w = k (_token (self w)) w.
Proof. intros Hheld. unfold bind. now rewrite (ensure_token_held w Hheld). Qed.

(** X1. A decorator whose ceiling of attempts is 0 or less runs the
    decorated coroutine not even once: the call raises the RuntimeError
    after the loop and leaves the world as it was.  With such a ceiling in
    the settings, [login] and every operation that needs a token raise this
    error without any request, whatever the client holds. *)
Theorem retry_without_attempts (max_attempts : option Z) :
  _max_attempts max_attempts <= 0 ->
  (forall (A : Type) (delay : option Q) (exceptions : list exc_class)
          (exponential_backoff : bool) (func : M A) (w : world),
      retry max_attempts delay exceptions exponential_backoff func w
      = (Raise (RuntimeError "重试失败，但未捕获到异常"), w))
  /\ (max_attempts = None ->
      forall (op : operation) (w : world),
        talks_to_service op = true ->
        perform op w = (Raise (RuntimeError "重试失败，但未捕获到异常"), w)).
Proof.
  intros Hceiling.
  assert (Hretry : forall (A : Type) (delay : option Q) (exceptions : list exc_class)
                          (exponential_backoff : bool) (func : M A) (w : world),
             retry max_attempts delay exceptions exponential_backoff func w
             = (Raise (RuntimeError "重试失败，但未捕获到异常"), w)).
  { intros. unfold retry. now rewrite py_range_empty by lia. }
  split; [exact Hretry |].
  intros -> op w Hop.
  assert (Hlogin : login w = (Raise (RuntimeError "重试失败，但未捕获到异常"), w))
    by apply Hretry.
  assert (Htoken : _ensure_token w
                   = (Raise (RuntimeError "重试失败，但未捕获到异常"), w)
                   \/ _ensure_token w = (Return (_token (self w)), w)).
  { destruct (truthy (_token (self w))) eqn:Hheld.
    - right. now apply ensure_token_held.
    - left. now rewrite (ensure_token_absent w Hheld), Hlogin. }
  destruct op; try discriminate Hop; simpl;
    unfold discard, get_account_info, get_phone, get_phone_specific, get_message,
      release_phone, release_all, blacklist_phone;
    unfold bind; rewrite ?Hlogin; try reflexivity;
    destruct Htoken as [-> | ->]; try reflexivity;
    unfold _request; now rewrite Hretry.
Qed.

(** X2. With a ceiling of at least 1, a decorated call whose first attempt
    returns, or raises an exception the decorator was not told to catch, is
    the bare call: same outcome, same world, no wait and no log. *)
Theorem retry_first_attempt {A : Type} (max_attempts : option Z) (delay : option Q)
    (exceptions : list exc_class) (exponential_backoff : bool) (func : M A)
    (w w' : world) (r : outcome A) :
  1 <= _max_attempts max_attempts ->
  func w = (r, w') ->
  (forall e, r = Raise e -> isinstance e exceptions = false) ->
  retry max_attempts delay exceptions exponential_backoff func w = (r, w').
Proof.
  intros Hceiling Hfunc Hr.
  unfold retry. rewrite py_range_cons by lia.
  destruct r as [a | e].
  - now apply retry_loop_return.
  - apply retry_loop_propagate; auto.
Qed.

Lemma sleeps_app (l1 l2 : list event) :
  sleeps (l1 ++ l2) = (sleeps l1 ++ sleeps l2)%list.
Proof. unfold sleeps. apply flat_map_app. Qed.

(** The loop over the attempts from [a] to the ceiling, on a coroutine
    that fails every time with an exception the decorator catches. *)
Lemma retry_loop_exhausts {A : Type} (max_attempts : option Z) (delay : option Q)
    (exceptions : list exc_class) (exponential_backoff : bool) (func : M A) :
  (forall w, exists e w' events,
      func w = (Raise e, w')
      /\ isinstance e exceptions = true
      /\ trace w' = (trace w ++ events)%list
      /\ sleeps events = []
      /\ gets w' = S (gets w)) ->
  forall (n : nat) (a : Z) (last : option exn) (w : world),
    a + Z.of_nat n = _max_attempts max_attempts ->
    exists e w' events,
      retry_loop max_attempts delay exceptions exponential_backoff func
        (py_range a (_max_attempts max_attempts + 1)) last w
      = (Raise e, w')
      /\ isinstance e exceptions = true
      /\ trace w' = (trace w ++ events)%list
      /\ sleeps events
         = map (wait_time delay exponential_backoff)
             (py_range a (_max_attempts max_attempts))
      /\ gets w' = (gets w + S n)%nat
      /\ exists before, events = (before ++ [EvLog ERROR (LogExhausted e)])%list.
Proof.
  intros Hfunc.
  induction n as [| n IH]; intros a last w Ha;
    destruct (Hfunc w) as (e & w1 & ev1 & Hf & Hi & Ht1 & Hs1 & Hg1).
  - rewrite py_range_cons, (py_range_empty (a + 1)) by lia.
    rewrite (py_range_empty a) by lia.
    rewrite (retry_loop_exhausted _ _ _ _ _ a [] last w w1 e Hf Hi) by lia.
    exists e, (after w1 [EvLog ERROR (LogExhausted e)]),
      (ev1 ++ [EvLog ERROR (LogExhausted e)])%list.
    simpl. rewrite Ht1, <- app_assoc, sleeps_app, Hs1.
    split; [reflexivity | split; [exact Hi | split; [reflexivity |]]].
    split; [reflexivity | split; [lia | now exists ev1]].
  - rewrite py_range_cons by lia.
    rewrite (retry_loop_again _ _ _ _ _ a _ last w w1 e Hf Hi) by lia.
    destruct (IH (a + 1) (Some e)
                (after w1 [EvLog WARNING
                             (LogRetry a (_max_attempts max_attempts) e
                                (wait_time delay exponential_backoff a));
                           EvSleep (wait_time delay exponential_backoff a)]))
      as (e' & w' & ev2 & Hloop & Hi' & Ht2 & Hs2 & Hg2 & before & Hlast); [lia |].
    exists e', w',
      (ev1 ++ [EvLog WARNING
                 (LogRetry a (_max_attempts max_attempts) e
                    (wait_time delay exponential_backoff a));
               EvSleep (wait_time delay exponential_backoff a)] ++ ev2)%list.
    split; [exact Hloop | split; [exact Hi' |]].
    split; [rewrite Ht2; simpl; rewrite Ht1; now rewrite <- !app_assoc |].
    split; [| split].
    + rewrite (py_range_cons a) by lia.
      rewrite !sleeps_app, Hs1, Hs2. reflexivity.
    + rewrite Hg2. simpl. lia.
    + subst ev2. eexists. now rewrite !app_assoc.
Qed.

(** X3. A decorated coroutine that fails at every attempt with an exception
    the decorator catches, each attempt sending one request and waiting for
    nothing itself, is run as many times as the ceiling says, whatever the
    delay, the caught classes and the backoff flag, for a ceiling of at
    least 1 and, with exponential backoff, of at most 1025 with waits that
    stay finite doubles (beyond that the product of the source raises
    OverflowError after attempt 1025, or is infinite): the waits of the run
    are those after the attempts 1 to ceiling-1 and no other, the wait
    after attempt k being delay * 2^(k-1) with exponential backoff and the
    delay without; the run ends with the error log and raises an exception
    of the caught classes. *)
Theorem retry_exhausted {A : Type} (max_attempts : option Z) (delay : option Q)
    (exceptions : list exc_class) (exponential_backoff : bool) (func : M A)
    (w : world) :
  1 <= _max_attempts max_attempts ->
  backoff_in_range max_attempts delay exponential_backoff ->
  (forall w, exists e w' events,
      func w = (Raise e, w')
      /\ isinstance e exceptions = true
      /\ trace w' = (trace w ++ events)%list
      /\ sleeps events = []
      /\ gets w' = S (gets w)) ->
  exists e w' events,
    retry max_attempts delay exceptions exponential_backoff func w = (Raise e, w')
    /\ isinstance e exceptions = true
    /\ trace w' = (trace w ++ events)%list
    /\ sleeps events
       = map (fun k => if exponential_backoff
                       then (_delay delay * inject_Z (2 ^ (k - 1)))%Q
                       else _delay delay)
           (py_range 1 (_max_attempts max_attempts))
    /\ gets w' = (gets w + Z.to_nat (_max_attempts max_attempts))%nat
    /\ exists before, events = (before ++ [EvLog ERROR (LogExhausted e)])%list.
Proof.
  intros Hceiling _ Hfunc.
  destruct (retry_loop_exhausts max_attempts delay exceptions exponential_backoff
              func Hfunc (Z.to_nat (_max_attempts max_attempts - 1)) 1 None w)
    as (e & w' & events & Hloop & Hi & Ht & Hs & Hg & Hlast); [lia |].
  exists e, w', events.
  split; [exact Hloop | split; [exact Hi | split; [exact Ht |]]].
  split; [exact Hs | split; [lia | exact Hlast]].
Qed.

(** ** The connection resource *)

(** X4. [_ensure_session] never raises and leaves the client with a live
    session, which it returns; a second call right after changes nothing
    and returns the same session.  A session that is open is reused as it
    is, with no effect at all; when there is none, or a closed one, a new
    one is made under the timeout of the settings of the client, and that
    is the one effect. *)
Theorem ensure_session_live (w : world) :
  exists s w1,
    _ensure_session w = (Return s, w1)
    /\ _session (self w1) = Some s
    /\ closed s = false
    /\ _ensure_session w1 = (Return s, w1)
    /\ (forall s0, _session (self w) = Some s0 -> closed s0 = false ->
        s = s0 /\ w1 = w)
    /\ (released (self w) ->
        s = {| closed := false; total_timeout := Config.timeout (_config (self w)) |}
        /\ w1 = {| self := set_session (self w) (Some s);
                   gets := gets w;
                   trace := trace w
                            ++ [EvSessionOpen (Config.timeout (_config (self w)))] |}).
Proof.
  destruct w as [c n t].
  unfold _ensure_session, bind, get_self, released. simpl.
  destruct (_session c) as [s0 |] eqn:Hs; [destruct (closed s0) eqn:Hc |].
  - eexists. eexists. split; [reflexivity |]. simpl.
    split; [reflexivity | split; [reflexivity | split; [reflexivity |]]].
    split; [| intros _; split; reflexivity].
    intros s1 H1 Hopen. inversion H1; subst. congruence.
  - exists s0, {| self := c; gets := n; trace := t |}.
    split; [reflexivity |]. simpl. rewrite Hs, Hc.
    split; [reflexivity | split; [reflexivity | split; [reflexivity |]]].
    split; [| discriminate].
    intros s1 H1 _. inversion H1; subst. now split.
  - eexists. eexists. split; [reflexivity |]. simpl.
    split; [reflexivity | split; [reflexivity | split; [reflexivity |]]].
    split; [discriminate | intros _; split; reflexivity].
Qed.

Lemma config_ensured (c : client) : _config (ensured c) = _config c.
Proof.
  unfold ensured.
  destruct (_session c) as [s |]; [destruct (closed s) |]; reflexivity.
Qed.

Lemma evolves_refl (w : world) : evolves w w.
Proof. unfold evolves, same_identity, session_kept. auto 6. Qed.

Lemma evolves_trans (w1 w2 w3 : world) :
  evolves w1 w2 -> evolves w2 w3 -> evolves w1 w3.
Proof.
  unfold evolves, same_identity, session_kept, released, fresh_session.
  intros [(Hc12 & Hu12 & Hp12 & Hs12) H12] [(Hc23 & Hu23 & Hp23 & Hs23) H23].
  split; [repeat split; congruence |].
  destruct H12 as [E12 | [Hr12 E12]], H23 as [E23 | [Hr23 E23]].
  - left. congruence.
  - right. rewrite E12, Hc12 in *. now split.
  - right. split; [exact Hr12 | congruence].
  - rewrite E12 in Hr23. discriminate Hr23.
Qed.

Lemma evolves_same_self (w w' : world) : self w' = self w -> evolves w w'.
Proof.
  intros Heq. unfold evolves, same_identity, session_kept. rewrite Heq. auto 6.
Qed.

Lemma evolves_event (w : world) (ev : event) :
  (forall url answer, ev <> EvGet url answer) -> evolves w (after w [ev]).
Proof. intros _. now apply evolves_same_self. Qed.

(** A goal [preserves R m] about a coroutine written with [bind], taken
    apart; [refl] and [trans] say that [R] is reflexive and transitive. *)
Ltac relation_by_parts refl trans leaf :=
  by_parts ltac:(apply (preserves_bind _ trans))
           ltac:(solve [ apply preserves_ret; exact refl
                       | apply preserves_raise; exact refl
                       | leaf ]).

Lemma evolves_emit (ev : event) : preserves evolves (emit ev).
Proof. intros w r w' H. inversion H; subst. now apply evolves_same_self. Qed.

Lemma evolves_get_self : preserves evolves get_self.
Proof. intros w r w' H. inversion H; subst. apply evolves_refl. Qed.

Lemma evolves_when (b : bool) (m : M unit) :
  preserves evolves m -> preserves evolves (when b m).
Proof.
  destruct b; simpl; [auto |]. intros _. apply preserves_ret, evolves_refl.
Qed.

Lemma evolves_ensure_session : preserves evolves _ensure_session.
Proof.
  intros w r w' H.
  destruct (ensure_session_ensured w) as [s Hs].
  rewrite Hs in H. inversion H; subst.
  unfold evolves, same_identity, session_kept, released. simpl.
  rewrite config_ensured, username_ensured, password_ensured, server_ensured.
  split; [now repeat split |].
  unfold ensured.
  destruct (_session (self w)) as [s0 |] eqn:Hs0; [destruct (closed s0) eqn:Hc |];
    simpl; rewrite ?Hs0; auto.
Qed.

Lemma evolves_http_get (url : string) : preserves evolves (http_get url).
Proof.
  intros w r w' H. unfold http_get in H.
  destruct (remote (gets w) url); inversion H; subst; now apply evolves_same_self.
Qed.

Lemma evolves_check_response (data : dict) (context : string) :
  preserves evolves (_check_response data context).
Proof.
  intros w r w' H. apply check_response_same_world in H. subst. apply evolves_refl.
Qed.

Lemma evolves_request (api : string) (params : dict) :
  preserves evolves (_request api params).
Proof.
  unfold _request.
  apply preserves_retry;
    [exact evolves_refl | exact evolves_trans | exact evolves_event |].
  unfold _request_body.
  relation_by_parts evolves_refl evolves_trans
    ltac:(auto using evolves_emit, evolves_get_self, evolves_when,
            evolves_ensure_session, evolves_http_get).
Qed.

Lemma evolves_login_body : preserves evolves login_body.
Proof.
  unfold login_body.
  apply (preserves_bind _ evolves_trans); [apply evolves_get_self | intros c].
  destruct (_ || _); [apply preserves_raise, evolves_refl |].
  repeat (cbv zeta; apply (preserves_bind _ evolves_trans);
          [solve [unfold log;
                  auto using evolves_emit, evolves_when, evolves_ensure_session,
                    evolves_http_get, evolves_check_response]
          | intros ?]).
  intros w r w' H.
  unfold bind, get_self, put_self, log, emit, ret, raise in H. simpl in H.
  destruct (truthy (dict_get a1 "token" (PStr ""))); inversion H; subst;
    unfold evolves, same_identity, session_kept; simpl; auto 6.
Qed.

Lemma evolves_login : preserves evolves login.
Proof.
  unfold login.
  apply preserves_retry;
    [exact evolves_refl | exact evolves_trans | exact evolves_event |].
  apply evolves_login_body.
Qed.

Lemma evolves_ensure_token : preserves evolves _ensure_token.
Proof.
  unfold _ensure_token.
  relation_by_parts evolves_refl evolves_trans
    ltac:(auto using evolves_get_self, evolves_login).
Qed.

Lemma evolves_perform (op : operation) :
  op <> Close -> op <> AExit -> preserves evolves (perform op).
Proof.
  intros Hclose Hexit.
  destruct op; try congruence; simpl;
    unfold discard, get_account_info, get_phone, get_phone_specific, get_message,
      release_phone, release_all, blacklist_phone, PhoneNumber_new, __aenter__;
    relation_by_parts evolves_refl evolves_trans
      ltac:(auto using evolves_emit, evolves_login, evolves_ensure_token,
              evolves_request, evolves_check_response, evolves_ensure_session).
Qed.

Lemma close_releases (w w' : world) (r : outcome unit) :
  close w = (r, w') ->
  r = Return tt
  /\ same_identity (self w) (self w')
  /\ released (self w')
  /\ (forall s, _session (self w) = Some s -> closed s = false ->
      _session (self w') = None /\ trace w' = (trace w ++ [EvSessionClose])%list).
Proof.
  unfold close, bind, get_self, same_identity, released. intros H. simpl in H.
  destruct (_session (self w)) as [s |] eqn:Hs; [destruct (closed s) eqn:Hc |];
    simpl in H; inversion H; subst; simpl; rewrite ?Hs;
    (split; [reflexivity | split; [now repeat split | split; [auto |]]]);
    intros s1 H1 Hopen; try discriminate; inversion H1; subst; try congruence.
  now split.
Qed.

(** X5. No operation changes the settings, the user name, the password or
    the server of the client.  Every operation but [close] and [__aexit__]
    leaves the connection resource as it found it, or, when there was none
    or a closed one, leaves a new one in its place: none of them closes a
    session, and none opens one beside an open one.  After [close] and
    [__aexit__] the connection resource is released. *)
Theorem operation_keeps_client (op : operation) (w w' : world) (r : outcome unit) :
  perform op w = (r, w') ->
  same_identity (self w) (self w')
  /\ (op <> Close -> op <> AExit -> session_kept (self w) (self w'))
  /\ (op = Close \/ op = AExit -> released (self w')).
Proof.
  intros H.
  assert (Hcases : (op = Close \/ op = AExit) \/ (op <> Close /\ op <> AExit))
    by (destruct op; auto; right; split; discriminate).
  destruct Hcases as [Hop | [Hclose Hexit]].
  - assert (Hrun : close w = (r, w')) by (destruct Hop; subst; exact H).
    apply close_releases in Hrun. destruct Hrun as (_ & Hsame & Hreleased & _).
    split; [exact Hsame | split; [| auto]].
    destruct Hop; subst; congruence.
  - destruct (evolves_perform op Hclose Hexit _ _ _ H) as [Hsame Hkept].
    split; [exact Hsame | split; [auto |]].
    intros [-> | ->]; congruence.
Qed.

(** X6. A block [async with client] runs its body on a client with a live
    session and ends with the outcome of the body, be it a value or an
    exception, on a client whose connection resource is released; a session
    the body left open is closed, and that is the last effect.  When the
    body is one operation of the client, whichever, the client has no
    session at the end. *)
Theorem async_with_releases :
  (forall (A : Type) (body : M A) (w : world),
      exists w1 r w2 w3,
        __aenter__ w = (Return tt, w1)
        /\ (exists s, _session (self w1) = Some s /\ closed s = false)
        /\ body w1 = (r, w2)
        /\ async_with body w = (r, w3)
        /\ released (self w3)
        /\ (forall s, _session (self w2) = Some s -> closed s = false ->
            _session (self w3) = None
            /\ trace w3 = (trace w2 ++ [EvSessionClose])%list))
  /\ (forall (op : operation) (w : world),
      exists r w3,
        async_with (perform op) w = (r, w3) /\ _session (self w3) = None).
Proof.
  assert (Henter : forall w, exists w1 s,
             __aenter__ w = (Return tt, w1)
             /\ _session (self w1) = Some s /\ closed s = false).
  { intros [c n t].
    unfold __aenter__, _ensure_session, bind, get_self, ret. simpl.
    destruct (_session c) as [s0 |] eqn:Hs0; [destruct (closed s0) eqn:Hc |];
      eexists; eexists; (split; [reflexivity |]); simpl; eauto. }
  assert (Hblock : forall (A : Type) (body : M A) (w : world),
      exists w1 r w2 w3,
        __aenter__ w = (Return tt, w1)
        /\ (exists s, _session (self w1) = Some s /\ closed s = false)
        /\ body w1 = (r, w2)
        /\ async_with body w = (r, w3)
        /\ released (self w3)
        /\ (forall s, _session (self w2) = Some s -> closed s = false ->
            _session (self w3) = None
            /\ trace w3 = (trace w2 ++ [EvSessionClose])%list)).
  { intros A body w.
    destruct (Henter w) as (w1 & s & Hw1 & Hs & Hopen).
    destruct (body w1) as [r w2] eqn:Hbody.
    destruct (close w2) as [u w3] eqn:Hclose.
    destruct (close_releases _ _ _ Hclose) as (-> & _ & Hreleased & Hclosed).
    exists w1, r, w2, w3.
    split; [exact Hw1 | split; [now exists s | split; [exact Hbody |]]].
    split; [| split; [exact Hreleased | exact Hclosed]].
    unfold async_with, __aexit__. now rewrite Hw1, Hbody, Hclose. }
  split; [exact Hblock |].
  intros op w.
  destruct (Hblock unit (perform op) w)
    as (w1 & r & w2 & w3 & Hw1 & (s & Hs & Hopen) & Hbody & Hrun & Hreleased & Hclosed).
  exists r, w3. split; [exact Hrun |].
  assert (Hcases : (op = Close \/ op = AExit) \/ (op <> Close /\ op <> AExit))
    by (destruct op; auto; right; split; discriminate).
  destruct Hcases as [Hop | [Hclose Hexit]].
  - assert (Hfirst : close w1 = (r, w2)) by (destruct Hop; subst; exact Hbody).
    destruct (close_releases _ _ _ Hfirst) as (_ & _ & _ & Hnone).
    destruct (Hnone s Hs Hopen) as [Hw2 _].
    unfold async_with, __aexit__ in Hrun. rewrite Hw1, Hbody in Hrun.
    unfold close, bind, get_self in Hrun. simpl in Hrun. rewrite Hw2 in Hrun.
    inversion Hrun; subst. exact Hw2.
  - destruct (evolves_perform op Hclose Hexit _ _ _ Hbody) as [_ [Hkept | [Hrel _]]].
    + rewrite Hs in Hkept. exact (proj1 (Hclosed s Hkept Hopen)).
    + unfold released in Hrel. rewrite Hs in Hrel. congruence.
Qed.

(** ** Logging in *)

(** X7. [_ensure_token] with a token held returns it and does nothing
    else; without one it is [login], outcome and world.  Whenever it
    returns, the token it returns is not empty and is the one the client
    holds from then on. *)
Theorem ensure_token_outcome (w w' : world) (r : outcome pyval) :
  _ensure_token w = (r, w') ->
  (truthy (_token (self w)) = true -> r = Return (_token (self w)) /\ w' = w)
  /\ (truthy (_token (self w)) = false -> login w = (r, w'))
  /\ (forall t, r = Return t -> truthy t = true /\ _token (self w') = t).
Proof.
  intros H.
  destruct (truthy (_token (self w))) eqn:Hheld.
  - rewrite (ensure_token_held w Hheld) in H. inversion H; subst.
    split; [now split | split; [discriminate |]].
    intros t Ht. inversion Ht; subst. now split.
  - rewrite (ensure_token_absent w Hheld) in H.
    destruct (login w) as [[t0 | e] w1] eqn:Hlogin; inversion H; subst.
    + destruct (login_returns _ _ _ Hlogin) as [Htruthy Heq].
      split; [discriminate | split; [intros _; now rewrite Heq |]].
      intros t Ht. inversion Ht; subst. now split.
    + split; [discriminate | split; [reflexivity | discriminate]].
Qed.








Lemma implicit_login_bind {A : Type} (k : pyval -> M A) (w : world) :
  truthy (_token (self w)) = false ->
  discard (bind _ensure_token k) w
  = bind (discard login) (fun _ => discard (bind _ensure_token k)) w.
Proof.
  intros Habsent. unfold discard, bind.
  rewrite (ensure_token_absent w Habsent).
  destruct (login w) as [[t | e] w1] eqn:Hlogin; [| reflexivity].
  unfold ret.
  apply login_returns in Hlogin.
  now rewrite (ensure_token_held w1 (proj1 Hlogin)).
Qed.

(** X10. On a client that holds no token, an operation that needs one is
    [login] followed by the same operation: the same outcome and the same
    world, effects included.  The login an operation makes on its own is
    the login a caller would have made before it. *)
Theorem implicit_login (op : operation) (w : world) :
  needs_token op = true ->
  truthy (_token (self w)) = false ->
  perform op w = bind (perform Login) (fun _ => perform op) w.
Proof.
  intros Hop Habsent.
  destruct op; try discriminate Hop; simpl;
    now apply implicit_login_bind.
Qed.

(** ** What the operations return *)



(** ** The requests of the other operations *)

Lemma sends_only_check (base url : string) (data : dict) (context : string) :
  preserves (sends_only base url) (_check_response data context).
Proof.
  apply preserves_same_world; [apply sends_only_refl |].
  intros w r w'. apply check_response_same_world.
Qed.

Lemma sends_only_log (base url : string) (level : log_level_name) (record : log_record) :
  preserves (sends_only base url) (emit (EvLog level record)).
Proof.
  intros w r w' H. inversion H; subst.
  apply (sends_only_events _ _ _ _ [EvLog level record]);
    [reflexivity | reflexivity | constructor].
Qed.

(** X13. With a token held, every operation that needs one sends all the
    requests of a run, the first attempt and the retries alike, to one URL:
    the one built from the server, its api name and its parameters, the
    held token among them.  The api names are getSummary, getPhone (for
    [get_phone] and for [get_phone_specific]), getMessage, cancelRecv,
    cancelAllRecv and addBlacklist; and the parts of [get_phone_specific]
    are api=getPhone, the token, the project id and the phone, then the
    author when one was given that is not empty. *)
Theorem operation_requests (op : operation) (api : string) (params : dict)
    (w w' : world) (r : outcome unit) :
  endpoint op (_token (self w)) = Some (api, params) ->
  truthy (_token (self w)) = true ->
  perform op w = (r, w') ->
  (exists events,
      trace w' = (trace w ++ events)%list
      /\ Forall (eq (_build_url (self w) api params)) (requests events))
  /\ (forall sid phone author,
      op = GetPhoneSpecific sid phone author ->
      query_parts api params
      = (["api=getPhone"; ("token=" ++ py_str (_token (self w)))%string;
          ("sid=" ++ py_str (PInt sid))%string; ("phone=" ++ phone)%string]
         ++ rendered (str_filter "author" author))%list).
Proof.
  intros Hendpoint Hheld H. split.
  - assert (Hrun : sends_only (_server (self w)) (_build_url (self w) api params) w w').
    { destruct op; simpl in Hendpoint; try discriminate Hendpoint;
        inversion Hendpoint; subst; clear Hendpoint;
        simpl in H; apply discard_inv in H; destruct H as (r0 & H & _);
        unfold get_account_info, get_phone, get_phone_specific, get_message,
          release_phone, release_all, blacklist_phone in H;
        rewrite (held_bind _ w Hheld) in H; cbv zeta in H;
        revert H; unfold _build_url;
        match goal with
        | |- ?m w = _ -> sends_only ?base ?url w w' =>
            intros H; refine ((_ : preserves (sends_only base url) m) _ _ _ H);
            unfold PhoneNumber_new;
            relation_by_parts (sends_only_refl base url) (sends_only_trans base url)
              ltac:(auto using request_sends, sends_only_check, sends_only_log)
        end. }
    now destruct (Hrun eq_refl) as [_ Hevents].
  - intros sid phone author ->. simpl in Hendpoint. inversion Hendpoint; subst.
    unfold get_phone_specific_params, set_if_true, str_filter.
    destruct (_token (self w)); try discriminate Hheld;
      (destruct author as [author |]; [destruct (nonempty author) |]); reflexivity.
Qed.

(** ** The requests an operation may send *)

Lemma requests_none (events : list event) :
  Forall (fun ev => forall url answer, ev <> EvGet url answer) events ->
  requests events = [].
Proof.
  induction 1 as [| ev events Hev _ IH]; [reflexivity |].
  destruct ev as [total | | url answer | seconds | level record]; simpl;
    try exact IH.
  now destruct (Hev url answer).
Qed.

Lemma sam_same_world {A : Type} (m : M A) :
  (forall w r w', m w = (r, w') -> w' = w) -> sends_at_most 0 m.
Proof.
  intros Hm w r w' H. apply Hm in H. subst.
  exists []. simpl. rewrite app_nil_r. repeat split; lia.
Qed.

Lemma sam_ret {A : Type} (a : A) : sends_at_most 0 (ret a).
Proof. apply sam_same_world. intros w r w' H. now inversion H. Qed.

Lemma sam_raise {A : Type} (e : exn) : sends_at_most 0 (@raise A e).
Proof. apply sam_same_world. intros w r w' H. now inversion H. Qed.

Lemma sam_get_self : sends_at_most 0 get_self.
Proof. apply sam_same_world. intros w r w' H. now inversion H. Qed.

Lemma sam_check_response (data : dict) (context : string) :
  sends_at_most 0 (_check_response data context).
Proof. apply sam_same_world. intros w r w'. apply check_response_same_world. Qed.

Lemma sam_log (level : log_level_name) (record : log_record) :
  sends_at_most 0 (emit (EvLog level record)).
Proof.
  intros w r w' H. inversion H; subst.
  exists [EvLog level record]. simpl. repeat split; lia.
Qed.

Lemma sam_put_self (c : client) : sends_at_most 0 (put_self c).
Proof.
  intros w r w' H. inversion H; subst.
  exists []. simpl. rewrite app_nil_r. repeat split; lia.
Qed.

Lemma sam_when (b : bool) (m : M unit) :
  sends_at_most 0 m -> sends_at_most 0 (when b m).
Proof. destruct b; simpl; auto using sam_ret. Qed.

Lemma sam_ensure_session : sends_at_most 0 _ensure_session.
Proof.
  intros w r w' H.
  destruct (ensure_session_ensured w) as [s Hs].
  rewrite Hs in H. inversion H; subst.
  exists (ensure_events (self w)). simpl. rewrite requests_ensure.
  repeat split; simpl; lia.
Qed.

Lemma sam_close : sends_at_most 0 close.
Proof.
  intros w r w' H. unfold close, bind, get_self in H. simpl in H.
  destruct (_session (self w)) as [s |]; [destruct (closed s) |];
    inversion H; subst;
    first [ exists [EvSessionClose]; simpl; repeat split; lia
          | exists []; simpl; rewrite app_nil_r; repeat split; lia ].
Qed.

Lemma sam_http_get (url : string) : sends_at_most 1 (http_get url).
Proof.
  intros w r w' H. unfold http_get in H.
  exists [EvGet url (remote (gets w) url)].
  destruct (remote (gets w) url); inversion H; subst; simpl; repeat split; lia.
Qed.

Lemma sam_weaken {A : Type} (n n' : nat) (m : M A) :
  (n <= n')%nat -> sends_at_most n m -> sends_at_most n' m.
Proof.
  intros Hle Hm w r w' H.
  destruct (Hm _ _ _ H) as (events & Ht & Hg & Hn).
  exists events. repeat split; [exact Ht | exact Hg | lia].
Qed.

Lemma sam_bind {A B : Type} (n1 n2 : nat) (m : M A) (k : A -> M B) :
  sends_at_most n1 m -> (forall a, sends_at_most n2 (k a)) ->
  sends_at_most (n1 + n2) (bind m k).
Proof.
  intros Hm Hk w r w' H. unfold bind in H.
  destruct (m w) as [[a | e] w1] eqn:Hmw;
    destruct (Hm _ _ _ Hmw) as (ev1 & Ht1 & Hg1 & Hn1).
  - destruct (Hk a _ _ _ H) as (ev2 & Ht2 & Hg2 & Hn2).
    exists (ev1 ++ ev2)%list.
    rewrite requests_app, length_app.
    repeat split; [now rewrite Ht2, Ht1, app_assoc | lia | lia].
  - inversion H; subst. exists ev1. repeat split; [exact Ht1 | exact Hg1 | lia].
Qed.

Lemma sam_then_quiet {A B : Type} (n : nat) (m : M A) (k : A -> M B) :
  sends_at_most n m -> (forall a, sends_at_most 0 (k a)) ->
  sends_at_most n (bind m k).
Proof.
  intros Hm Hk. apply (sam_weaken (n + 0)); [lia |]. now apply sam_bind.
Qed.

Lemma sam_request_body (api : string) (params : dict) :
  sends_at_most 1 (_request_body api params).
Proof.
  unfold _request_body.
  apply (sam_bind 0 1); [apply sam_ensure_session | intros _].
  apply (sam_bind 0 1); [apply sam_get_self | intros c]. cbv zeta.
  apply (sam_bind 0 1); [apply sam_when, sam_log | intros _].
  apply (sam_bind 1 0); [apply sam_http_get | intros data].
  by_parts ltac:(apply (sam_bind 0 0))
           ltac:(solve [auto using sam_ret, sam_when, sam_log]).
Qed.

Lemma sam_login_body : sends_at_most 1 login_body.
Proof.
  unfold login_body.
  apply (sam_bind 0 1); [apply sam_get_self | intros c].
  destruct (_ || _); [apply (sam_weaken 0); [lia | apply sam_raise] |].
  apply (sam_bind 0 1); [apply sam_ensure_session | intros _]. cbv zeta.
  apply (sam_bind 0 1); [apply sam_when, sam_log | intros _].
  apply (sam_bind 1 0); [apply sam_http_get | intros data].
  by_parts ltac:(apply (sam_bind 0 0))
           ltac:(solve [auto using sam_ret, sam_raise, sam_when, sam_log,
                          sam_check_response, sam_get_self, sam_put_self]).
Qed.

(** The loop sends what its attempts send, one request each. *)
Lemma sam_retry_loop {A : Type} (max_attempts : option Z) (delay : option Q)
    (exceptions : list exc_class) (exponential_backoff : bool) (func : M A) :
  sends_at_most 1 func ->
  forall (attempts : list Z) (last : option exn),
    sends_at_most (List.length attempts)
      (retry_loop max_attempts delay exceptions exponential_backoff func
         attempts last).
Proof.
  intros Hfunc attempts.
  induction attempts as [| attempt rest IH]; intros last w r w' H.
  - exists []. simpl. rewrite app_nil_r.
    simpl in H. destruct last; inversion H; subst; repeat split; lia.
  - destruct (func w) as [[a | e] w1] eqn:Hf;
      destruct (Hfunc _ _ _ Hf) as (ev1 & Ht1 & Hg1 & Hn1).
    + rewrite (retry_loop_return _ _ _ _ _ _ _ _ _ _ _ Hf) in H.
      inversion H; subst. exists ev1. simpl. repeat split; [exact Ht1 | exact Hg1 | lia].
    + destruct (isinstance e exceptions) eqn:Hi.
      * destruct (retry_loop_caught max_attempts delay exceptions
                    exponential_backoff func attempt rest last w w1 e Hf Hi)
          as (own & Hloop & Hown).
        rewrite Hloop in H. apply IH in H.
        destruct H as (ev2 & Ht2 & Hg2 & Hn2). simpl in Ht2, Hg2.
        exists (ev1 ++ own ++ ev2)%list.
        rewrite !requests_app, (requests_none own Hown), !length_app. simpl.
        repeat split; [rewrite Ht2, Ht1; now rewrite <- !app_assoc | lia | lia].
      * rewrite (retry_loop_propagate _ _ _ _ _ _ _ _ _ _ _ Hf Hi) in H.
        inversion H; subst. exists ev1. simpl.
        repeat split; [exact Ht1 | exact Hg1 | lia].
Qed.

Lemma sam_request (api : string) (params : dict) :
  sends_at_most (Z.to_nat (Config.max_retries settings)) (_request api params).
Proof.
  unfold _request, retry.
  eapply sam_weaken; [| apply sam_retry_loop, sam_request_body].
  rewrite py_range_length. unfold _max_attempts, int_or. lia.
Qed.

Lemma sam_login : sends_at_most (Z.to_nat (Config.max_retries settings)) login.
Proof.
  unfold login, retry.
  eapply sam_weaken; [| apply sam_retry_loop, sam_login_body].
  rewrite py_range_length. unfold _max_attempts, int_or. lia.
Qed.

Lemma sam_ensure_token :
  sends_at_most (Z.to_nat (Config.max_retries settings)) _ensure_token.
Proof.
  unfold _ensure_token.
  apply (sam_bind 0); [apply sam_get_self | intros c].
  apply sam_then_quiet.
  - destruct (negb (truthy (_token c))).
    + apply sam_then_quiet; [apply sam_login | intros _; apply sam_ret].
    + apply (sam_weaken 0); [lia | apply sam_ret].
  - intros _.
    by_parts ltac:(apply (sam_bind 0 0))
             ltac:(solve [auto using sam_ret, sam_get_self]).
Qed.

(** An operation that needs a token: its own request, after the login it
    makes when no token is held. *)
Lemma sam_with_token {A : Type} (n : nat) (k : pyval -> M A)
    (w w' : world) (r : outcome A) :
  n = Z.to_nat (Config.max_retries settings) ->
  (forall token, sends_at_most n (k token)) ->
  bind _ensure_token k w = (r, w') ->
  exists events,
    trace w' = (trace w ++ events)%list
    /\ gets w' = (gets w + List.length (requests events))%nat
    /\ (List.length (requests events)
        <= if truthy (_token (self w)) then n else n + n)%nat.
Proof.
  intros -> Hk H.
  destruct (truthy (_token (self w))) eqn:Hheld.
  - rewrite (held_bind _ w Hheld) in H. exact (Hk _ _ _ _ H).
  - exact (sam_bind _ _ _ _ sam_ensure_token Hk _ _ _ H).
Qed.

(** X14. Every run of an operation sends a bounded number of requests:
    none for [close], [__aenter__] and [__aexit__]; at most as many as the
    retry ceiling of the settings for [login], and for an operation that
    needs a token on a client that holds one; at most twice as many for
    such an operation on a client that holds none, the login it starts with
    included.  The requests in the trace are the requests counted. *)
Theorem request_budget (op : operation) (w w' : world) (r : outcome unit) :
  perform op w = (r, w') ->
  exists events,
    trace w' = (trace w ++ events)%list
    /\ gets w' = (gets w + List.length (requests events))%nat
    /\ (List.length (requests events) <= budget op (truthy (_token (self w))))%nat.
Proof.
  intros H.
  destruct op; simpl in H; unfold budget.
  1: { apply discard_inv in H. destruct H as (r0 & H & _).
       exact (sam_login _ _ _ H). }
  1-7: apply discard_inv in H; destruct H as (r0 & H & _);
       unfold get_account_info, get_phone, get_phone_specific, get_message,
         release_phone, release_all, blacklist_phone in H;
       refine (sam_with_token _ _ _ _ _ eq_refl _ H);
       intros token; cbv zeta;
       (apply sam_then_quiet; [apply sam_request | intros data]);
       unfold PhoneNumber_new;
       by_parts ltac:(apply (sam_bind 0 0))
                ltac:(solve [auto using sam_ret, sam_raise, sam_log,
                               sam_check_response]).
  - exact (sam_close _ _ _ H).
  - revert H. unfold __aenter__.
    refine ((_ : sends_at_most 0 _) w r w').
    by_parts ltac:(apply (sam_bind 0 0))
             ltac:(solve [auto using sam_ret, sam_ensure_session]).
  - exact (sam_close _ _ _ H).
Qed.

(** ** The classifier at its edges *)

(** X18. The classifier at its edges.  An envelope without a code is read
    as code "-1" and so is a failure.  A failure envelope without a message
    raises the APIError of the default message "未知错误" ([str.lower]
    leaving that text without "token", as it does).  And a failure envelope
    whose message is not text (null, a number, an object) does not raise an
    error of the taxonomy at all: the classifier fails with the
    AttributeError of [msg.lower]. *)
Theorem check_response_edges (data : dict) (context : string) (w : world) :
  (dict_mem data "code" = false ->
   envelope_code data = "-1" /\ is_success data = false)
  /\ (is_success data = false ->
      dict_mem data "msg" = false ->
      str_in "token" (str_lower "未知错误") = false ->
      _check_response data context w
      = (Raise (HaoZhuError APIError (composed_message context "未知错误")
                  (Some (envelope_code data))), w))
  /\ (is_success data = false ->
      (forall msg, dict_get data "msg" (PStr "未知错误") <> PStr msg) ->
      _check_response data context w = (Raise (AttributeError "lower"), w)).
Proof.
  split; [| split].
  - intros Ho. unfold is_success, envelope_code.
    now rewrite (dict_get_omitted _ _ _ Ho).
  - intros Hno Ho Htoken.
    rewrite (check_response_failure data context "未知错误" w Hno
               (dict_get_omitted _ _ _ Ho)).
    unfold classify, priority_rules, first_match, mentions_authentication.
    now rewrite Htoken.
  - intros Hno Hmsg.
    unfold is_success, envelope_code in Hno. unfold _check_response.
    rewrite Hno.
    destruct (dict_get data "msg" (PStr "未知错误")) as [| b | z | msg | text truth];
      try reflexivity.
    now destruct (Hmsg msg).
Qed.

(** ** Giving up, and succeeding *)

Lemma sleeps_ensure (c : client) : sleeps (ensure_events c) = [].
Proof.
  unfold ensure_events.
  destruct (_session c) as [s |]; [destruct (closed s) |]; reflexivity.
Qed.

(** An attempt of [_request] when the remote side is down. *)
Lemma request_body_down (api : string) (params : dict) (w : world) :
  (forall n url, exists e,
      remote n url = NetRaise e /\ isinstance e transport_errors = true) ->
  exists e w' events,
    _request_body api params w = (Raise e, w')
    /\ isinstance e transport_errors = true
    /\ trace w' = (trace w ++ events)%list
    /\ sleeps events = []
    /\ gets w' = S (gets w).
Proof.
  intros Hdown.
  destruct (Hdown (gets w) (_build_url (self w) api params)) as (e & He & Ht).
  destruct (ensure_session_ensured w) as [s Hs].
  unfold _request_body, bind, get_self. rewrite Hs. simpl.
  rewrite build_url_ensured.
  unfold http_get, when, log, emit, ret.
  destruct (Config.log_requests (_config (ensured (self w)))); simpl;
    rewrite He; exists e; eexists; eexists;
    (split; [reflexivity |]); (split; [exact Ht |]);
    (split; [simpl; rewrite <- ?app_assoc; reflexivity |]);
    (split; [| reflexivity]);
    rewrite ?sleeps_app, sleeps_ensure; reflexivity.
Qed.

(** X19. When every request fails in transport, an operation that needs a
    token, on a client that holds one, gives up after as many requests as
    the retry ceiling of the settings says, for a ceiling from 1 to 1025
    and waits that stay finite doubles (with a ceiling above 1025 the
    backoff product of the source raises OverflowError after attempt
    1025): it raises a transport exception, having waited after the
    attempts 1 to ceiling-1 and no other, retry_delay * 2^(k-1) seconds
    after attempt k; the token is held still. *)
Theorem operation_gives_up (op : operation) (api : string) (params : dict)
    (w : world) :
  endpoint op (_token (self w)) = Some (api, params) ->
  truthy (_token (self w)) = true ->
  1 <= Config.max_retries settings ->
  backoff_in_range None None true ->
  (forall n url, exists e,
      remote n url = NetRaise e /\ isinstance e transport_errors = true) ->
  exists e w' events,
    perform op w = (Raise e, w')
    /\ isinstance e transport_errors = true
    /\ trace w' = (trace w ++ events)%list
    /\ sleeps events
       = map (fun k => (Config.retry_delay settings * inject_Z (2 ^ (k - 1)))%Q)
           (py_range 1 (Config.max_retries settings))
    /\ gets w' = (gets w + Z.to_nat (Config.max_retries settings))%nat
    /\ _token (self w') = _token (self w).
Proof.
  intros Hendpoint Hheld Hceiling _ Hdown.
  destruct (retry_loop_exhausts None None transport_errors true
              (_request_body api params)
              (fun w0 => request_body_down api params w0 Hdown)
              (Z.to_nat (Config.max_retries settings - 1)) 1 None w)
    as (e & w' & events & Hloop & Hi & Ht & Hs & Hg & _).
  { unfold _max_attempts, int_or. lia. }
  assert (Hreq : _request api params w = (Raise e, w')) by exact Hloop.
  exists e, w', events.
  split; [| split; [exact Hi | split; [exact Ht | split; [exact Hs | split; [lia |]]]]].
  - destruct op; simpl in Hendpoint; try discriminate Hendpoint;
      inversion Hendpoint; subst; clear Hendpoint; simpl;
      unfold discard, get_account_info, get_phone, get_phone_specific, get_message,
        release_phone, release_all, blacklist_phone;
      unfold bind; rewrite (ensure_token_held w Hheld); cbv beta iota zeta;
      now rewrite Hreq.
  - exact (keeps_request _ _ _ _ _ Hreq).
Qed.



(** ** The errors of the taxonomy the client raises *)

Lemma ro_ret {A : Type} (P : exn -> Prop) (a : A) : raises_only P (ret a).
Proof. intros w w' e H. discriminate H. Qed.

Lemma ro_raise {A : Type} (P : exn -> Prop) (e : exn) :
  P e -> raises_only P (@raise A e).
Proof. intros He w w' e' H. inversion H; subst. exact He. Qed.

Lemma ro_emit (P : exn -> Prop) (ev : event) : raises_only P (emit ev).
Proof. intros w w' e H. discriminate H. Qed.

Lemma ro_get_self (P : exn -> Prop) : raises_only P get_self.
Proof. intros w w' e H. discriminate H. Qed.

Lemma ro_put_self (P : exn -> Prop) (c : client) : raises_only P (put_self c).
Proof. intros w w' e H. discriminate H. Qed.

Lemma ro_when (P : exn -> Prop) (b : bool) (m : M unit) :
  raises_only P m -> raises_only P (when b m).
Proof. destruct b; simpl; auto using ro_ret. Qed.

Lemma ro_bind {A B : Type} (P : exn -> Prop) (m : M A) (k : A -> M B) :
  raises_only P m -> (forall a, raises_only P (k a)) -> raises_only P (bind m k).
Proof.
  intros Hm Hk w w' e H. unfold bind in H.
  destruct (m w) as [[a | e1] w1] eqn:Hmw.
  - exact (Hk a _ _ _ H).
  - inversion H; subst. exact (Hm _ _ _ Hmw).
Qed.

Lemma ro_ensure_session (P : exn -> Prop) : raises_only P _ensure_session.
Proof.
  intros w w' e H.
  destruct (ensure_session_ensured w) as [s Hs].
  rewrite Hs in H. discriminate H.
Qed.

Lemma ro_close (P : exn -> Prop) : raises_only P close.
Proof.
  intros w w' e H. unfold close, bind, get_self in H. simpl in H.
  destruct (_session (self w)) as [s |]; [destruct (closed s) |]; discriminate H.
Qed.

Lemma ro_http_get (url : string) : raises_only of_produced_kind (http_get url).
Proof.
  intros w w' e H. unfold http_get in H.
  destruct (remote (gets w) url) as [data | e0] eqn:Hremote; inversion H; subst.
  intros kind message code _. right. now exists (gets w), url.
Qed.

Lemma ro_check_response (data : dict) (context : string) :
  raises_only of_produced_kind (_check_response data context).
Proof.
  intros w w' e H.
  destruct (is_success data) eqn:Hok.
  - rewrite (check_response_success _ _ _ Hok) in H. discriminate H.
  - destruct (dict_get data "msg" (PStr "未知错误")) as [| b | z | msg | text truth] eqn:Hmsg;
      try (unfold _check_response in H;
           unfold is_success, envelope_code in Hok; rewrite Hok, Hmsg in H;
           inversion H; subst; intros kind message code Heq; discriminate Heq).
    rewrite (check_response_failure _ context msg _ Hok Hmsg) in H.
    inversion H; subst.
    intros kind message code Heq. inversion Heq; subst.
    left. apply classify_produced.
Qed.

Lemma ro_authentication {A : Type} (message : string) (code : option string) :
  raises_only of_produced_kind
    (@raise A (HaoZhuError AuthenticationError message code)).
Proof.
  apply ro_raise. intros kind message' code' Heq. inversion Heq; subst.
  left. now left.
Qed.

Lemma ro_validation {A : Type} (model : string) :
  raises_only of_produced_kind (@raise A (ValidationError model)).
Proof. apply ro_raise. intros kind message code Heq. discriminate Heq. Qed.

(** The loop raises what an attempt raised, or the RuntimeError after it. *)
Lemma ro_retry_loop {A : Type} (P : exn -> Prop) (max_attempts : option Z)
    (delay : option Q) (exceptions : list exc_class) (exponential_backoff : bool)
    (func : M A) :
  raises_only P func ->
  P (RuntimeError "重试失败，但未捕获到异常") ->
  forall (attempts : list Z) (last : option exn),
    (forall e, last = Some e -> P e) ->
    raises_only P
      (retry_loop max_attempts delay exceptions exponential_backoff func
         attempts last).
Proof.
  intros Hfunc Hruntime attempts.
  induction attempts as [| attempt rest IH]; intros last Hlast w w' e H.
  - simpl in H. destruct last as [e0 |]; inversion H; subst; auto.
  - destruct (func w) as [[a | e1] w1] eqn:Hf.
    + rewrite (retry_loop_return _ _ _ _ _ _ _ _ _ _ _ Hf) in H. discriminate H.
    + destruct (isinstance e1 exceptions) eqn:Hi.
      * destruct (retry_loop_caught max_attempts delay exceptions
                    exponential_backoff func attempt rest last w w1 e1 Hf Hi)
          as (own & Hloop & _).
        rewrite Hloop in H. revert H. apply IH.
        intros e0 He0. inversion He0; subst. exact (Hfunc _ _ _ Hf).
      * rewrite (retry_loop_propagate _ _ _ _ _ _ _ _ _ _ _ Hf Hi) in H.
        inversion H; subst. exact (Hfunc _ _ _ Hf).
Qed.

Lemma produced_kind_runtime :
  of_produced_kind (RuntimeError "重试失败，但未捕获到异常").
Proof. intros kind message code Heq. discriminate Heq. Qed.

Lemma ro_request (api : string) (params : dict) :
  raises_only of_produced_kind (_request api params).
Proof.
  unfold _request, retry.
  apply ro_retry_loop; [| exact produced_kind_runtime | discriminate].
  unfold _request_body.
  by_parts ltac:(apply ro_bind)
           ltac:(solve [auto using ro_ret, ro_emit, ro_get_self, ro_when,
                          ro_ensure_session, ro_http_get]).
Qed.

Lemma ro_login : raises_only of_produced_kind login.
Proof.
  unfold login, retry.
  apply ro_retry_loop; [| exact produced_kind_runtime | discriminate].
  unfold login_body.
  by_parts ltac:(apply ro_bind)
           ltac:(solve [auto using ro_ret, ro_emit, ro_get_self, ro_put_self,
                          ro_when, ro_ensure_session, ro_http_get,
                          ro_check_response, ro_authentication]).
Qed.

Lemma ro_perform (op : operation) : raises_only of_produced_kind (perform op).
Proof.
  destruct op; simpl;
    unfold discard, get_account_info, get_phone, get_phone_specific, get_message,
      release_phone, release_all, blacklist_phone, PhoneNumber_new,
      _ensure_token, __aenter__, __aexit__;
    by_parts ltac:(apply ro_bind)
             ltac:(solve [auto using ro_ret, ro_emit, ro_get_self, ro_login,
                            ro_request, ro_check_response, ro_validation,
                            ro_ensure_session, ro_close]).
Qed.

(** X21. The errors of the taxonomy that the client raises.  An error of
    the taxonomy that an operation raises is of one of the five kinds
    AuthenticationError, InsufficientBalanceError, PhoneNotAvailableError,
    MessageNotReadyError and APIError, unless it is an exception the remote
    call itself raised on a request: the client never raises a
    RateLimitError of its own.  And [close], [__aenter__] and [__aexit__]
    never raise. *)
Theorem operation_exceptions (op : operation) (w w' : world) (e : exn) :
  perform op w = (Raise e, w') ->
  (forall kind message code,
      e = HaoZhuError kind message code ->
      In kind produced_kinds \/ exists n url, remote n url = NetRaise e)
  /\ (forall message code,
      e = HaoZhuError RateLimitError message code ->
      exists n url, remote n url = NetRaise e)
  /\ talks_to_service op = true.
Proof.
  intros H.
  pose proof (ro_perform op _ _ _ H) as Hkind.
  split; [exact Hkind | split].
  - intros message code Heq.
    destruct (Hkind _ _ _ Heq) as [Hin | Hremote]; [| exact Hremote].
    simpl in Hin.
    repeat (destruct Hin as [Hin | Hin]; [discriminate Hin |]). destruct Hin.
  - destruct op; try reflexivity; simpl in H; exfalso.
    + exact (ro_close (fun _ => False) _ _ _ H).
    + unfold __aenter__ in H. revert H.
      refine ((_ : raises_only (fun _ => False) _) w w' e).
      by_parts ltac:(apply ro_bind)
               ltac:(solve [auto using ro_ret, ro_ensure_session]).
    + exact (ro_close (fun _ => False) _ _ _ H).
Qed.

(** ** The requests of login *)

Lemma login_url_same (c c' : client) :
  same_identity c c' -> login_url c' = login_url c.
Proof. intros (_ & Hu & Hp & Hs). unfold login_url. now rewrite Hu, Hp, Hs. Qed.

Lemma same_identity_refl (c : client) : same_identity c c.
Proof. now repeat split. Qed.

Lemma same_identity_ensured (c : client) (t : pyval) :
  same_identity c (ensured c) /\ same_identity c (set_token (ensured c) t).
Proof.
  unfold same_identity. simpl.
  now rewrite config_ensured, username_ensured, password_ensured, server_ensured.
Qed.

Lemma logs_in_refl (w : world) : logs_in_only w w.
Proof.
  split; [apply same_identity_refl |].
  exists []. split; [now rewrite app_nil_r | constructor].
Qed.

Lemma logs_in_trans (w1 w2 w3 : world) :
  logs_in_only w1 w2 -> logs_in_only w2 w3 -> logs_in_only w1 w3.
Proof.
  intros [H12 (ev12 & Ht12 & Hf12)] [H23 (ev23 & Ht23 & Hf23)].
  rewrite (login_url_same _ _ H12) in Hf23.
  split.
  - destruct H12 as (A1 & A2 & A3 & A4), H23 as (B1 & B2 & B3 & B4).
    repeat split; congruence.
  - exists (ev12 ++ ev23)%list. split.
    + now rewrite Ht23, Ht12, app_assoc.
    + rewrite requests_app. apply Forall_app. now split.
Qed.

Lemma logs_in_event (w : world) (ev : event) :
  (forall url answer, ev <> EvGet url answer) -> logs_in_only w (after w [ev]).
Proof.
  intros Hev. split; [apply same_identity_refl |].
  exists [ev]. split; [reflexivity |].
  destruct ev as [total | | url answer | seconds | level record];
    try (now constructor).
  now destruct (Hev url answer).
Qed.

(** An attempt of [login] sends at most one request, to the URL made of
    the server and the credentials of the client. *)
Lemma login_body_logs_in : preserves logs_in_only login_body.
Proof.
  intros w r w' H.
  destruct (ensure_session_ensured w) as [s Hs].
  destruct (same_identity_ensured (self w) (PStr "")) as [Hensured _].
  unfold login_body, bind, get_self in H.
  destruct (_ || _).
  { inversion H; subst. apply logs_in_refl. }
  rewrite Hs in H. simpl in H.
  unfold http_get, when, log, emit, ret in H. simpl in H.
  destruct (Config.log_requests (_config (self w))); simpl in H;
    match type of H with
    | context [remote ?n ?u] => destruct (remote n u) as [data | e]
    end;
    try match type of H with
        | context [_check_response ?d ?c ?w1] =>
            destruct (_check_response d c w1) as [[[] | e] w2] eqn:Hcheck;
            apply check_response_same_world in Hcheck; subst w2;
            unfold put_self, raise in H; simpl in H;
            try destruct (truthy (dict_get data "token" (PStr "")))
        end;
    inversion H; subst; clear H;
    (split;
     [ simpl; first [ exact Hensured
                    | exact (proj2 (same_identity_ensured (self w) _)) ]
     | eexists; (split; [simpl; rewrite <- ?app_assoc; reflexivity |]);
       rewrite ?requests_app, requests_ensure; simpl; repeat constructor ]).
Qed.

(** X23. Every request of a [login] call, the first attempt and the
    retries alike, goes to one URL: the server of the client, then
    "/sms/?api=login&user=", the user name, "&pass=" and the password, both
    as they are.  It is the URL [_build_url] gives for the api name login
    and the parameters user and pass; the held token is no part of it. *)
Theorem login_requests (w w' : world) (r : outcome pyval) :
  login w = (r, w') ->
  (exists events,
      trace w' = (trace w ++ events)%list
      /\ Forall (eq (_server (self w) ++ "/sms/?api=login&user=" ++ _username (self w)
                     ++ "&pass=" ++ _password (self w))%string)
           (requests events))
  /\ (_server (self w) ++ "/sms/?api=login&user=" ++ _username (self w)
      ++ "&pass=" ++ _password (self w))%string
     = _build_url (self w) "login"
         [("user", PStr (_username (self w))); ("pass", PStr (_password (self w)))].
Proof.
  intros H. split.
  - assert (Hrun : logs_in_only w w').
    { revert H. unfold login.
      apply preserves_retry;
        [exact logs_in_refl | exact logs_in_trans | exact logs_in_event
        | exact login_body_logs_in]. }
    exact (proj2 Hrun).
  - reflexivity.
Qed.

(** ** The filters of constants.py *)

(** X22. A carrier and a phone type taken from the enumerations of
    constants.py always reach the request of [get_phone]: the query has
    operator=<value> and phone_type=<value> for every member, also for
    PhoneType.VIRTUAL, whose value 0 is false as a condition but is not
    None; and a province code taken from PROVINCE_CODES is sent as
    province=<code>. *)
Theorem enum_filters_sent (token : pyval) (sid : Z) (c : Carrier.t) (p : PhoneType.t)
    (province : option Z) (prefix exclude_prefix uid author : option string) :
  let parts :=
    query_parts "getPhone"
      (get_phone_params token sid (Some (Carrier.value c)) province
         (Some (PhoneType.value p)) prefix exclude_prefix uid author) in
  In ("operator=" ++ py_str (PInt (Carrier.value c)))%string parts
  /\ In ("phone_type=" ++ py_str (PInt (PhoneType.value p)))%string parts
  /\ (forall name code,
      table_get String.eqb PROVINCE_CODES name = Some code ->
      province = Some code ->
      In ("province=" ++ py_str (PInt code))%string parts).
Proof.
  intros parts. subst parts.
  rewrite query_parts_query_of, get_phone_params_filters, query_of_app.
  - unfold rendered. rewrite !map_app.
    split; [| split].
    + apply in_or_app. right. apply in_or_app. left. now left.
    + apply in_or_app. right. do 2 (apply in_or_app; right).
      apply in_or_app. left. now left.
    + intros name code _ ->.
      apply in_or_app. right. apply in_or_app. right.
      apply in_or_app. left. now left.
  - intros kv Hin.
    repeat (apply in_app_or in Hin; destruct Hin as [Hin | Hin]);
      eauto using int_filter_given, str_filter_given.
Qed.

End Client.

(** * The constructor and the tables of constants.py *)

Lemma append_slash_nonempty (t : string) : (t ++ "/")%string <> "".
Proof. destruct t; discriminate. Qed.

Lemma rstrip_slash_spec (s : string) :
  (exists k, s = (rstrip_slash s ++ slashes k)%string)
  /\ (forall t, rstrip_slash s <> (t ++ "/")%string).
Proof.
  induction s as [| c rest [[k Hk] Hend]]; simpl.
  - split; [now exists 0%nat | intros t H; symmetry in H].
    now apply append_slash_nonempty in H.
  - destruct (rstrip_slash rest) as [| c' kept] eqn:Hrest.
    + destruct (Ascii.eqb_spec c "/") as [-> | Hc].
      * split; [exists (S k); simpl; now rewrite Hk at 1 |].
        intros t H. symmetry in H. now apply append_slash_nonempty in H.
      * split; [exists k; simpl; now rewrite Hk at 1 |].
        intros [| c1 t] H; simpl in H; inversion H; subst; [now apply Hc |].
        match goal with
        | Hempty : EmptyString = _ |- _ =>
            symmetry in Hempty; now apply append_slash_nonempty in Hempty
        end.
    + split; [exists k; simpl; now rewrite Hk at 1 |].
      intros [| c1 t] H; simpl in H; inversion H; subst.
      now apply (Hend t).
Qed.

(** X16. The client [HaoZhuClient(...)] makes holds no session.  Its server
    is the server argument, or the server of its settings when the argument
    is None or empty, less its trailing slashes: nothing but slashes is
    taken off, and what is left does not end with a slash.  An argument for the user
    name, the password or the token that is given and not empty is what the
    client holds; None and the empty string both give the value of the
    settings, which are the [config] argument or else the module's. *)
Theorem client_constructed (settings : Config.HaoZhuSettings)
    (username password token server : option string)
    (config : option Config.HaoZhuSettings) :
  let c := HaoZhuClient settings username password token server config in
  let cfg := match config with Some given => given | None => settings end in
  _session c = None
  /\ _config c = cfg
  /\ (exists k, str_or server (Config.server cfg) = (_server c ++ slashes k)%string)
  /\ (forall t, _server c <> (t ++ "/")%string)
  /\ (forall given, given <> "" ->
      (username = Some given -> _username c = given)
      /\ (password = Some given -> _password c = given)
      /\ (token = Some given -> _token c = PStr given))
  /\ (username = None \/ username = Some "" -> _username c = Config.username cfg)
  /\ (password = None \/ password = Some "" -> _password c = Config.password cfg)
  /\ (token = None \/ token = Some "" -> _token c = PStr (Config.token cfg)).
Proof.
  intros c cfg. subst c. unfold HaoZhuClient. fold cfg. simpl.
  destruct (rstrip_slash_spec (str_or server (Config.server cfg))) as [Hk Hend].
  split; [reflexivity | split; [reflexivity | split; [exact Hk |]]].
  split; [exact Hend |].
  split; [| split; [| split]].
  - intros given Hgiven. apply String.eqb_neq in Hgiven.
    repeat split; intros ->; unfold str_or, nonempty; now rewrite Hgiven.
  - intros [-> | ->]; reflexivity.
  - intros [-> | ->]; reflexivity.
  - intros [-> | ->]; reflexivity.
Qed.

Lemma table_get_In {K V : Type} (eqb : K -> K -> bool) (d : list (K * V))
    (key : K) (v : V) :
  (forall a b, eqb a b = true -> a = b) ->
  table_get eqb d key = Some v -> In (key, v) d.
Proof.
  intros Heqb.
  induction d as [| [k v0] d IH]; simpl; [discriminate |].
  destruct (eqb k key) eqn:Hk.
  - intros H. inversion H; subst. left. now rewrite (Heqb _ _ Hk).
  - auto.
Qed.

(** X17. [PROVINCE_NAMES] is the inverse of [PROVINCE_CODES]: a name has a
    code in the one exactly when the code has that name in the other, so
    that no two provinces share a code and none of the 31 is lost in the
    inversion.  And [CARRIER_NAMES] names the members of [Carrier] and
    nothing else: every member has a name under its value, and every key
    of the table is the value of a member. *)
Theorem constant_tables :
  (forall name code,
      table_get String.eqb PROVINCE_CODES name = Some code
      <-> table_get Z.eqb PROVINCE_NAMES code = Some name)
  /\ List.length PROVINCE_NAMES = List.length PROVINCE_CODES
  /\ (forall c, exists name, table_get Z.eqb CARRIER_NAMES (Carrier.value c) = Some name)
  /\ (forall code name,
      table_get Z.eqb CARRIER_NAMES code = Some name ->
      exists c, Carrier.value c = code).
Proof.
  split; [| split; [reflexivity | split]].
  - intros name code. split; intros H.
    + apply table_get_In in H; [| intros a b; apply String.eqb_eq].
      unfold PROVINCE_CODES in H. simpl in H.
      repeat (destruct H as [H | H]; [inversion H; subst; reflexivity |]).
      destruct H.
    + apply table_get_In in H; [| intros a b; apply Z.eqb_eq].
      vm_compute in H.
      repeat (destruct H as [H | H]; [inversion H; subst; reflexivity |]).
      destruct H.
  - intros []; eexists; reflexivity.
  - intros code name H.
    apply table_get_In in H; [| intros a b; apply Z.eqb_eq].
    simpl in H.
    destruct H as [H | [H | [H | [H | [H | []]]]]]; inversion H; subst.
    + now exists Carrier.CHINA_MOBILE.
    + now exists Carrier.CHINA_UNICOM.
    + now exists Carrier.CHINA_TELECOM.
    + now exists Carrier.CHINA_BROADCAST.
    + now exists Carrier.VIRTUAL.
Qed.

(** * The properties at sample data *)

Lemma check_response_priority_witness :
  envelope_code [("code", PInt 1001); ("msg", PStr "余额不足, Token 已过期")] <> "0"
  /\ envelope_code [("code", PInt 1001); ("msg", PStr "余额不足, Token 已过期")] <> "200"
  /\ _check_response ascii_lower
       [("code", PInt 1001); ("msg", PStr "余额不足, Token 已过期")] "获取号码"
       (fresh_world anonymous_client)
     = (Raise (HaoZhuError AuthenticationError "获取号码: 余额不足, Token 已过期"
                 (Some "1001")),
        fresh_world anonymous_client).
Proof.
  assert (H0 : envelope_code [("code", PInt 1001); ("msg", PStr "余额不足, Token 已过期")]
               <> "0") by (vm_compute; discriminate).
  assert (H200 : envelope_code [("code", PInt 1001); ("msg", PStr "余额不足, Token 已过期")]
                 <> "200") by (vm_compute; discriminate).
  split; [exact H0 | split; [exact H200 |]].
  exact (proj1 (check_response_priority ascii_lower
                  [("code", PInt 1001); ("msg", PStr "余额不足, Token 已过期")]
                  "获取号码" "余额不足, Token 已过期"
                  (fresh_world anonymous_client) H0 H200 eq_refl)).
Defined.

Lemma retry_three_attempts_witness :
  http_get remote_down "https://api.haozhuma.com/sms/?api=getSummary"
    (fresh_world anonymous_client)
  = (Raise (TimeoutError ""),
     {| self := anonymous_client;
        gets := 1;
        trace := [EvGet "https://api.haozhuma.com/sms/?api=getSummary" timeout_answer] |})
  /\ isinstance (TimeoutError "") transport_errors = true
  /\ retry Config.defaults (Some 3) (Some 1%Q) transport_errors true
       (http_get remote_down "https://api.haozhuma.com/sms/?api=getSummary")
       (fresh_world anonymous_client)
     = (Raise (TimeoutError ""),
        after
          {| self := anonymous_client;
             gets := 3;
             trace :=
               [EvGet "https://api.haozhuma.com/sms/?api=getSummary" timeout_answer;
                EvLog WARNING (LogRetry 1 3 (TimeoutError "") 1);
                EvSleep 1;
                EvGet "https://api.haozhuma.com/sms/?api=getSummary" timeout_answer;
                EvLog WARNING (LogRetry 2 3 (TimeoutError "") 2);
                EvSleep 2;
                EvGet "https://api.haozhuma.com/sms/?api=getSummary" timeout_answer] |}
          [EvLog ERROR (LogExhausted (TimeoutError ""))]).
Proof.
  split; [reflexivity | split; [reflexivity |]].
  exact (retry_three_attempts Config.defaults
           (http_get remote_down "https://api.haozhuma.com/sms/?api=getSummary")
           (fresh_world anonymous_client) _ _ _ _ _ _
           eq_refl eq_refl eq_refl eq_refl eq_refl eq_refl).
Defined.

(** The same run, evaluated: three requests, waits of 1 and 2 seconds
    between them, and the last time-out raised. *)
Example three_timeouts_trace :
  retry Config.defaults (Some 3) (Some 1%Q) transport_errors true
    (http_get remote_down "https://api.haozhuma.com/sms/?api=getSummary")
    (fresh_world anonymous_client)
  = (Raise (TimeoutError ""),
     {| self := anonymous_client;
        gets := 3;
        trace :=
          [EvGet "https://api.haozhuma.com/sms/?api=getSummary" timeout_answer;
           EvLog WARNING (LogRetry 1 3 (TimeoutError "") 1);
           EvSleep 1;
           EvGet "https://api.haozhuma.com/sms/?api=getSummary" timeout_answer;
           EvLog WARNING (LogRetry 2 3 (TimeoutError "") 2);
           EvSleep 2;
           EvGet "https://api.haozhuma.com/sms/?api=getSummary" timeout_answer;
           EvLog ERROR (LogExhausted (TimeoutError ""))] |}).
Proof. reflexivity. Qed.

Lemma application_errors_not_retried_witness :
  login_body ascii_lower remote_wrong_password (fresh_world client_with_credentials)
  = (Raise (HaoZhuError AuthenticationError "登录: 密码错误" (Some "1")),
     {| self := set_session client_with_credentials (Some open_session);
        gets := 1;
        trace := [EvSessionOpen 30;
                  EvGet "https://api.haozhuma.com/sms/?api=login&user=alice&pass=secret"
                    wrong_password_answer] |})
  /\ retry_loop Config.defaults None None transport_errors true
       (login_body ascii_lower remote_wrong_password) [1; 2; 3] None
       (fresh_world client_with_credentials)
     = (Raise (HaoZhuError AuthenticationError "登录: 密码错误" (Some "1")),
        {| self := set_session client_with_credentials (Some open_session);
           gets := 1;
           trace := [EvSessionOpen 30;
                     EvGet "https://api.haozhuma.com/sms/?api=login&user=alice&pass=secret"
                       wrong_password_answer] |})
  /\ perform Config.defaults ascii_lower remote_wrong_password strict_str strict_int
       string text_decimal (ReleasePhone 7 "13800000000") (fresh_world client_with_token)
     = (Raise (HaoZhuError AuthenticationError "释放号码: 密码错误" (Some "1")),
        {| self := set_session client_with_token (Some open_session);
           gets := 1;
           trace :=
             [EvSessionOpen 30;
              EvGet "https://api.haozhuma.com/sms/?api=cancelRecv&token=T0&sid=7&phone=13800000000"
                wrong_password_answer] |})
  /\ exists events,
      [EvSessionOpen 30;
       EvGet "https://api.haozhuma.com/sms/?api=cancelRecv&token=T0&sid=7&phone=13800000000"
         wrong_password_answer]
      = ([] ++ events)%list
      /\ failure_last raised_on_failure
           (@Raise unit (HaoZhuError AuthenticationError "释放号码: 密码错误" (Some "1")))
           events.
Proof.
  assert (Hbody :
    login_body ascii_lower remote_wrong_password (fresh_world client_with_credentials)
    = (Raise (HaoZhuError AuthenticationError "登录: 密码错误" (Some "1")),
       {| self := set_session client_with_credentials (Some open_session);
          gets := 1;
          trace := [EvSessionOpen 30;
                    EvGet "https://api.haozhuma.com/sms/?api=login&user=alice&pass=secret"
                      wrong_password_answer] |}))
    by reflexivity.
  assert (Hrun :
    perform Config.defaults ascii_lower remote_wrong_password strict_str strict_int
      string text_decimal (ReleasePhone 7 "13800000000") (fresh_world client_with_token)
    = (Raise (HaoZhuError AuthenticationError "释放号码: 密码错误" (Some "1")),
       {| self := set_session client_with_token (Some open_session);
          gets := 1;
          trace :=
            [EvSessionOpen 30;
             EvGet "https://api.haozhuma.com/sms/?api=cancelRecv&token=T0&sid=7&phone=13800000000"
               wrong_password_answer] |}))
    by reflexivity.
  split; [exact Hbody | split; [| split; [exact Hrun |]]].
  - refine (proj1 (proj1 (application_errors_not_retried Config.defaults ascii_lower
                            remote_wrong_password strict_str strict_int string
                            text_decimal)
                     _ None None true
                     (login_body ascii_lower remote_wrong_password) 1 [2; 3] None
                     _ _ _ Hbody) _).
    right. reflexivity.
  - exact (proj2 (application_errors_not_retried Config.defaults ascii_lower
                    remote_wrong_password strict_str strict_int string text_decimal)
             (ReleasePhone 7 "13800000000") _ _ _ Hrun).
Defined.




(** C7 as stated fails under a retry ceiling of 0: the loop makes no
    attempt, the body of [login] never runs, and what is raised is the
    RuntimeError after the loop. *)
Lemma login_empty_credentials_counterexample :
  _username (HaoZhuClient settings_without_attempts None None None None None) = ""
  /\ login settings_without_attempts ascii_lower remote_down
       (fresh_world (HaoZhuClient settings_without_attempts None None None None None))
     = (Raise (RuntimeError "重试失败，但未捕获到异常"),
        fresh_world (HaoZhuClient settings_without_attempts None None None None None)).
Proof. split; reflexivity. Qed.

Lemma login_empty_credentials_witness :
  (_username anonymous_client = "" \/ _password anonymous_client = "")
  /\ exists e,
      login Config.defaults ascii_lower remote_down (fresh_world anonymous_client)
      = (Raise e, fresh_world anonymous_client)
      /\ (1 <= Config.max_retries Config.defaults ->
          e = HaoZhuError AuthenticationError "用户名和密码不能为空" None).
Proof.
  assert (Hempty : _username anonymous_client = "" \/ _password anonymous_client = "")
    by (left; reflexivity).
  split; [exact Hempty |].
  exact (login_empty_credentials Config.defaults ascii_lower remote_down
           (fresh_world anonymous_client) Hempty).
Defined.



Lemma build_url_parameters_witness :
  truthy (_token client_with_token) = true
  /\ get_phone Config.defaults ascii_lower remote_phone strict_str strict_int
       7 (Some 1) None (Some 0) (Some "") (Some "170|171") None None
       (fresh_world client_with_token)
     = (Return {| PhoneNumber.phone := "13800000000";
                  PhoneNumber.sid := 7;
                  PhoneNumber.country_name := "中国";
                  PhoneNumber.country_code := "CN";
                  PhoneNumber.country_qu := "86";
                  PhoneNumber.sp := "";
                  PhoneNumber.phone_gsd := "" |},
        {| self := set_session client_with_token (Some open_session);
           gets := 1;
           trace :=
             [EvSessionOpen 30;
              EvGet "https://api.haozhuma.com/sms/?api=getPhone&token=T0&sid=7&operator=1&phone_type=0&exclude_prefix=170|171" phone_answer] |})
  /\ exists events,
      [EvSessionOpen 30;
       EvGet "https://api.haozhuma.com/sms/?api=getPhone&token=T0&sid=7&operator=1&phone_type=0&exclude_prefix=170|171" phone_answer]
      = ([] ++ events)%list
      /\ Forall (eq "https://api.haozhuma.com/sms/?api=getPhone&token=T0&sid=7&operator=1&phone_type=0&exclude_prefix=170|171")
           (requests events).
Proof.
  assert (Hrun :
    get_phone Config.defaults ascii_lower remote_phone strict_str strict_int
      7 (Some 1) None (Some 0) (Some "") (Some "170|171") None None
      (fresh_world client_with_token)
    = (Return {| PhoneNumber.phone := "13800000000";
                 PhoneNumber.sid := 7;
                 PhoneNumber.country_name := "中国";
                 PhoneNumber.country_code := "CN";
                 PhoneNumber.country_qu := "86";
                 PhoneNumber.sp := "";
                 PhoneNumber.phone_gsd := "" |},
       {| self := set_session client_with_token (Some open_session);
          gets := 1;
          trace :=
            [EvSessionOpen 30;
             EvGet "https://api.haozhuma.com/sms/?api=getPhone&token=T0&sid=7&operator=1&phone_type=0&exclude_prefix=170|171" phone_answer] |}))
    by reflexivity.
  split; [reflexivity | split; [exact Hrun |]].
  exact (proj2 (proj2 (build_url_parameters Config.defaults ascii_lower remote_phone
                         strict_str strict_int client_with_token "getPhone" []))
           7 (Some 1) None (Some 0) (Some "") (Some "170|171") None None
           (fresh_world client_with_token) _ _ eq_refl Hrun).
Defined.

(** The request string of a [get_phone] call with an operator, a phone
    type of 0, an empty prefix filter and an exclusion filter. *)
Example get_phone_url :
  _build_url client_with_token "getPhone"
    (get_phone_params (PStr "T0") 7 (Some 1) None (Some 0)
       (Some "") (Some "170|171") None None)
  = "https://api.haozhuma.com/sms/?api=getPhone&token=T0&sid=7&operator=1&phone_type=0&exclude_prefix=170|171".
Proof. reflexivity. Qed.

Lemma retry_without_attempts_witness :
  _max_attempts settings_without_attempts None <= 0
  /\ perform settings_without_attempts ascii_lower remote_phone strict_str strict_int
       string text_decimal ReleaseAll (fresh_world client_with_token)
     = (Raise (RuntimeError "重试失败，但未捕获到异常"), fresh_world client_with_token).
Proof.
  assert (Hceiling : _max_attempts settings_without_attempts None <= 0)
    by (vm_compute; discriminate).
  split; [exact Hceiling |].
  exact (proj2 (retry_without_attempts settings_without_attempts ascii_lower
                  remote_phone strict_str strict_int string text_decimal None Hceiling)
           eq_refl ReleaseAll (fresh_world client_with_token) eq_refl).
Defined.

Lemma retry_first_attempt_witness :
  1 <= _max_attempts Config.defaults None
  /\ http_get remote_phone "https://api.haozhuma.com/sms/?api=getSummary"
       (fresh_world anonymous_client)
     = (Return [("code", PInt 0); ("phone", PStr "13800000000")],
        {| self := anonymous_client;
           gets := 1;
           trace := [EvGet "https://api.haozhuma.com/sms/?api=getSummary" phone_answer] |})
  /\ retry Config.defaults None None transport_errors true
       (http_get remote_phone "https://api.haozhuma.com/sms/?api=getSummary")
       (fresh_world anonymous_client)
     = (Return [("code", PInt 0); ("phone", PStr "13800000000")],
        {| self := anonymous_client;
           gets := 1;
           trace := [EvGet "https://api.haozhuma.com/sms/?api=getSummary" phone_answer] |}).
Proof.
  assert (Hceiling : 1 <= _max_attempts Config.defaults None)
    by (vm_compute; discriminate).
  split; [exact Hceiling | split; [reflexivity |]].
  apply (retry_first_attempt Config.defaults None None transport_errors true
           (http_get remote_phone "https://api.haozhuma.com/sms/?api=getSummary")
           (fresh_world anonymous_client) _ _ Hceiling eq_refl).
  intros e He. discriminate He.
Defined.

Lemma retry_exhausted_witness :
  1 <= _max_attempts Config.defaults (Some 4)
  /\ backoff_in_range Config.defaults (Some 4) (Some 1%Q) true
  /\ exists e w' events,
      retry Config.defaults (Some 4) (Some 1%Q) [Exception_class] true
        (http_get remote_down "https://api.haozhuma.com/sms/?api=getSummary")
        (fresh_world anonymous_client)
      = (Raise e, w')
      /\ isinstance e [Exception_class] = true
      /\ trace w' = ([] ++ events)%list
      /\ sleeps events = [1%Q; 2%Q; 4%Q]
      /\ gets w' = 4%nat
      /\ exists before, events = (before ++ [EvLog ERROR (LogExhausted e)])%list.
Proof.
  assert (Hceiling : 1 <= _max_attempts Config.defaults (Some 4))
    by (vm_compute; discriminate).
  assert (Hrange : backoff_in_range Config.defaults (Some 4) (Some 1%Q) true).
  { intros _. split; [vm_compute; discriminate | split; vm_compute; reflexivity]. }
  split; [exact Hceiling | split; [exact Hrange |]].
  apply (retry_exhausted Config.defaults (Some 4) (Some 1%Q) [Exception_class] true
           (http_get remote_down "https://api.haozhuma.com/sms/?api=getSummary")
           (fresh_world anonymous_client) Hceiling Hrange).
  intros w.
  exists (TimeoutError ""),
    {| self := self w; gets := S (gets w);
       trace := trace w
                ++ [EvGet "https://api.haozhuma.com/sms/?api=getSummary" timeout_answer] |},
    [EvGet "https://api.haozhuma.com/sms/?api=getSummary" timeout_answer].
  repeat split.
Defined.

Lemma operation_keeps_client_witness :
  perform Config.defaults ascii_lower remote_phone strict_str strict_int
    string text_decimal (ReleasePhone 7 "13800000000") (fresh_world client_with_token)
  = (Return tt,
     {| self := set_session client_with_token (Some open_session);
        gets := 1;
        trace :=
          [EvSessionOpen 30;
           EvGet "https://api.haozhuma.com/sms/?api=cancelRecv&token=T0&sid=7&phone=13800000000" phone_answer;
           EvLog INFO (LogReleased "13800000000")] |})
  /\ same_identity client_with_token (set_session client_with_token (Some open_session))
  /\ (ReleasePhone 7 "13800000000" <> Close ->
      ReleasePhone 7 "13800000000" <> AExit ->
      session_kept client_with_token (set_session client_with_token (Some open_session)))
  /\ (ReleasePhone 7 "13800000000" = Close \/ ReleasePhone 7 "13800000000" = AExit ->
      released (set_session client_with_token (Some open_session))).
Proof.
  assert (Hrun :
    perform Config.defaults ascii_lower remote_phone strict_str strict_int
      string text_decimal (ReleasePhone 7 "13800000000") (fresh_world client_with_token)
    = (Return tt,
       {| self := set_session client_with_token (Some open_session);
          gets := 1;
          trace :=
            [EvSessionOpen 30;
             EvGet "https://api.haozhuma.com/sms/?api=cancelRecv&token=T0&sid=7&phone=13800000000" phone_answer;
             EvLog INFO (LogReleased "13800000000")] |}))
    by reflexivity.
  split; [exact Hrun |].
  exact (operation_keeps_client Config.defaults ascii_lower remote_phone strict_str
           strict_int string text_decimal (ReleasePhone 7 "13800000000") _ _ _ Hrun).
Defined.

Lemma ensure_token_outcome_witness :
  _ensure_token Config.defaults ascii_lower remote_grant_then_reject
    (fresh_world client_with_credentials)
  = (Return (PStr "T1"),
     {| self := set_token (set_session client_with_credentials (Some open_session))
                  (PStr "T1");
        gets := 1;
        trace :=
          [EvSessionOpen 30;
           EvGet "https://api.haozhuma.com/sms/?api=login&user=alice&pass=secret"
             granted_answer;
           EvLog INFO LogLoginOk] |})
  /\ truthy (PStr "T1") = true
  /\ _token (set_token (set_session client_with_credentials (Some open_session))
               (PStr "T1"))
     = PStr "T1".
Proof.
  assert (Hrun :
    _ensure_token Config.defaults ascii_lower remote_grant_then_reject
      (fresh_world client_with_credentials)
    = (Return (PStr "T1"),
       {| self := set_token (set_session client_with_credentials (Some open_session))
                    (PStr "T1");
          gets := 1;
          trace :=
            [EvSessionOpen 30;
             EvGet "https://api.haozhuma.com/sms/?api=login&user=alice&pass=secret"
               granted_answer;
             EvLog INFO LogLoginOk] |}))
    by reflexivity.
  split; [exact Hrun |].
  exact (proj2 (proj2 (ensure_token_outcome Config.defaults ascii_lower
                         remote_grant_then_reject _ _ _ Hrun))
           (PStr "T1") eq_refl).
Defined.



Lemma implicit_login_witness :
  needs_token ReleaseAll = true
  /\ truthy (_token client_with_credentials) = false
  /\ perform Config.defaults ascii_lower remote_grant_then_reject strict_str strict_int
       string text_decimal ReleaseAll (fresh_world client_with_credentials)
     = bind (perform Config.defaults ascii_lower remote_grant_then_reject strict_str
               strict_int string text_decimal Login)
         (fun _ => perform Config.defaults ascii_lower remote_grant_then_reject
                     strict_str strict_int string text_decimal ReleaseAll)
         (fresh_world client_with_credentials).
Proof.
  split; [reflexivity | split; [reflexivity |]].
  exact (implicit_login Config.defaults ascii_lower remote_grant_then_reject strict_str
           strict_int string text_decimal ReleaseAll
           (fresh_world client_with_credentials) eq_refl eq_refl).
Defined.



Lemma operation_requests_witness :
  endpoint (BlacklistPhone 7 "13800000000") (_token client_with_token)
  = Some ("addBlacklist",
          [("token", PStr "T0"); ("sid", PInt 7); ("phone", PStr "13800000000")])
  /\ truthy (_token client_with_token) = true
  /\ perform Config.defaults ascii_lower remote_bare_success strict_str strict_int
       string text_decimal (BlacklistPhone 7 "13800000000")
       (fresh_world client_with_token)
     = (Return tt,
        {| self := set_session client_with_token (Some open_session);
           gets := 2;
           trace :=
             [EvSessionOpen 30;
              EvGet "https://api.haozhuma.com/sms/?api=addBlacklist&token=T0&sid=7&phone=13800000000" reset_answer;
              EvLog WARNING (LogRetry 1 3 (ClientError "connection reset") 1);
              EvSleep 1;
              EvGet "https://api.haozhuma.com/sms/?api=addBlacklist&token=T0&sid=7&phone=13800000000" bare_success_answer;
              EvLog INFO (LogBlacklisted "13800000000")] |})
  /\ exists events,
      [EvSessionOpen 30;
       EvGet "https://api.haozhuma.com/sms/?api=addBlacklist&token=T0&sid=7&phone=13800000000" reset_answer;
       EvLog WARNING (LogRetry 1 3 (ClientError "connection reset") 1);
       EvSleep 1;
       EvGet "https://api.haozhuma.com/sms/?api=addBlacklist&token=T0&sid=7&phone=13800000000" bare_success_answer;
       EvLog INFO (LogBlacklisted "13800000000")]
      = ([] ++ events)%list
      /\ Forall (eq "https://api.haozhuma.com/sms/?api=addBlacklist&token=T0&sid=7&phone=13800000000")
           (requests events).
Proof.
  assert (Hrun :
    perform Config.defaults ascii_lower remote_bare_success strict_str strict_int
      string text_decimal (BlacklistPhone 7 "13800000000")
      (fresh_world client_with_token)
    = (Return tt,
       {| self := set_session client_with_token (Some open_session);
          gets := 2;
          trace :=
            [EvSessionOpen 30;
             EvGet "https://api.haozhuma.com/sms/?api=addBlacklist&token=T0&sid=7&phone=13800000000" reset_answer;
             EvLog WARNING (LogRetry 1 3 (ClientError "connection reset") 1);
             EvSleep 1;
             EvGet "https://api.haozhuma.com/sms/?api=addBlacklist&token=T0&sid=7&phone=13800000000" bare_success_answer;
             EvLog INFO (LogBlacklisted "13800000000")] |}))
    by reflexivity.
  split; [reflexivity | split; [reflexivity | split; [exact Hrun |]]].
  exact (proj1 (operation_requests Config.defaults ascii_lower remote_bare_success
                  strict_str strict_int string text_decimal
                  (BlacklistPhone 7 "13800000000") "addBlacklist"
                  [("token", PStr "T0"); ("sid", PInt 7); ("phone", PStr "13800000000")]
                  (fresh_world client_with_token) _ _ eq_refl eq_refl Hrun)).
Defined.

Lemma request_budget_witness :
  perform Config.defaults ascii_lower remote_grant_then_reject strict_str strict_int
    string text_decimal ReleaseAll (fresh_world client_with_credentials)
  = (Raise (HaoZhuError AuthenticationError "释放所有号码: Token 已过期" (Some "1")),
     {| self := set_token (set_session client_with_credentials (Some open_session))
                  (PStr "T1");
        gets := 2;
        trace :=
          [EvSessionOpen 30;
           EvGet "https://api.haozhuma.com/sms/?api=login&user=alice&pass=secret"
             granted_answer;
           EvLog INFO LogLoginOk;
           EvGet "https://api.haozhuma.com/sms/?api=cancelAllRecv&token=T1"
             expired_answer] |})
  /\ exists events,
      [EvSessionOpen 30;
       EvGet "https://api.haozhuma.com/sms/?api=login&user=alice&pass=secret"
         granted_answer;
       EvLog INFO LogLoginOk;
       EvGet "https://api.haozhuma.com/sms/?api=cancelAllRecv&token=T1"
         expired_answer]
      = ([] ++ events)%list
      /\ 2%nat = (0 + List.length (requests events))%nat
      /\ (List.length (requests events) <= 6)%nat.
Proof.
  assert (Hrun :
    perform Config.defaults ascii_lower remote_grant_then_reject strict_str strict_int
      string text_decimal ReleaseAll (fresh_world client_with_credentials)
    = (Raise (HaoZhuError AuthenticationError "释放所有号码: Token 已过期" (Some "1")),
       {| self := set_token (set_session client_with_credentials (Some open_session))
                    (PStr "T1");
          gets := 2;
          trace :=
            [EvSessionOpen 30;
             EvGet "https://api.haozhuma.com/sms/?api=login&user=alice&pass=secret"
               granted_answer;
             EvLog INFO LogLoginOk;
             EvGet "https://api.haozhuma.com/sms/?api=cancelAllRecv&token=T1"
               expired_answer] |}))
    by reflexivity.
  split; [exact Hrun |].
  exact (request_budget Config.defaults ascii_lower remote_grant_then_reject strict_str
           strict_int string text_decimal ReleaseAll _ _ _ Hrun).
Defined.

(** The block of main.py around one call, evaluated: the session is opened,
    the call is made, and the session is closed although the call raised. *)
Example async_with_trace :
  async_with
    (release_all Config.defaults ascii_lower remote_wrong_password)
    (fresh_world client_with_token)
  = (Raise (HaoZhuError AuthenticationError "释放所有号码: 密码错误" (Some "1")),
     {| self := set_session client_with_token None;
        gets := 1;
        trace :=
          [EvSessionOpen 30;
           EvGet "https://api.haozhuma.com/sms/?api=cancelAllRecv&token=T0"
             wrong_password_answer;
           EvSessionClose] |}).
Proof. reflexivity. Qed.

Lemma operation_gives_up_witness :
  endpoint (GetMessage 7 "13800000000") (_token client_with_token)
  = Some ("getMessage",
          [("token", PStr "T0"); ("sid", PInt 7); ("phone", PStr "13800000000")])
  /\ truthy (_token client_with_token) = true
  /\ 1 <= Config.max_retries Config.defaults
  /\ backoff_in_range Config.defaults None None true
  /\ (forall n url, exists e,
        remote_down n url = NetRaise e /\ isinstance e transport_errors = true)
  /\ exists e w' events,
      perform Config.defaults ascii_lower remote_down strict_str strict_int
        string text_decimal (GetMessage 7 "13800000000") (fresh_world client_with_token)
      = (Raise e, w')
      /\ isinstance e transport_errors = true
      /\ trace w' = ([] ++ events)%list
      /\ sleeps events = [1%Q; 2%Q]
      /\ gets w' = 3%nat
      /\ _token (self w') = PStr "T0".
Proof.
  assert (Hceiling : 1 <= Config.max_retries Config.defaults)
    by (vm_compute; discriminate).
  assert (Hdown : forall (n : nat) (url : string), exists e,
             remote_down n url = NetRaise e /\ isinstance e transport_errors = true).
  { intros n url. exists (TimeoutError ""). split; reflexivity. }
  assert (Hrange : backoff_in_range Config.defaults None None true).
  { intros _. split; [vm_compute; discriminate | split; vm_compute; reflexivity]. }
  split; [reflexivity | split; [reflexivity | split; [exact Hceiling |]]].
  split; [exact Hrange | split; [exact Hdown |]].
  exact (operation_gives_up Config.defaults ascii_lower remote_down strict_str
           strict_int string text_decimal (GetMessage 7 "13800000000") "getMessage"
           [("token", PStr "T0"); ("sid", PInt 7); ("phone", PStr "13800000000")]
           (fresh_world client_with_token) eq_refl eq_refl Hceiling Hrange Hdown).
Defined.


Lemma operation_exceptions_witness :
  perform Config.defaults ascii_lower remote_wrong_password strict_str strict_int
    string text_decimal (ReleasePhone 7 "13800000000") (fresh_world client_with_token)
  = (Raise (HaoZhuError AuthenticationError "释放号码: 密码错误" (Some "1")),
     {| self := set_session client_with_token (Some open_session);
        gets := 1;
        trace :=
          [EvSessionOpen 30;
           EvGet "https://api.haozhuma.com/sms/?api=cancelRecv&token=T0&sid=7&phone=13800000000" wrong_password_answer] |})
  /\ of_produced_kind remote_wrong_password
       (HaoZhuError AuthenticationError "释放号码: 密码错误" (Some "1")).
Proof.
  assert (Hrun :
    perform Config.defaults ascii_lower remote_wrong_password strict_str strict_int
      string text_decimal (ReleasePhone 7 "13800000000") (fresh_world client_with_token)
    = (Raise (HaoZhuError AuthenticationError "释放号码: 密码错误" (Some "1")),
       {| self := set_session client_with_token (Some open_session);
          gets := 1;
          trace :=
            [EvSessionOpen 30;
             EvGet "https://api.haozhuma.com/sms/?api=cancelRecv&token=T0&sid=7&phone=13800000000" wrong_password_answer] |}))
    by reflexivity.
  split; [exact Hrun |].
  exact (proj1 (operation_exceptions Config.defaults ascii_lower remote_wrong_password
                  strict_str strict_int string text_decimal
                  (ReleasePhone 7 "13800000000") _ _ _ Hrun)).
Defined.

(** The classifier on an envelope that carries nothing, and on one whose
    message is null. *)
Example check_response_empty_envelope :
  _check_response ascii_lower [] "获取号码" (fresh_world anonymous_client)
  = (Raise (HaoZhuError APIError "获取号码: 未知错误" (Some "-1")),
     fresh_world anonymous_client)
  /\ _check_response ascii_lower [("code", PInt 1); ("msg", PNone)] "获取号码"
       (fresh_world anonymous_client)
     = (Raise (AttributeError "lower"), fresh_world anonymous_client).
Proof. split; reflexivity. Qed.

(** The request of the second example of main.py: a number of China Mobile,
    a real card, of Guangdong, from two prefixes. *)
Example filtered_phone_url :
  table_get String.eqb PROVINCE_CODES "广东" = Some 43
  /\ _build_url client_with_token "getPhone"
       (get_phone_params (PStr "T0") 123
          (Some (Carrier.value Carrier.CHINA_MOBILE)) (Some 43)
          (Some (PhoneType.value PhoneType.REAL))
          (Some "1380|1381") None None None)
     = "https://api.haozhuma.com/sms/?api=getPhone&token=T0&sid=123&operator=1&province=43&phone_type=1&prefix=1380|1381".
Proof. split; reflexivity. Qed.

Lemma login_requests_witness :
  login Config.defaults ascii_lower remote_reset_then_grant
    (fresh_world client_with_both)
  = (Return (PStr "T1"),
     {| self := set_token (set_session client_with_both (Some open_session))
                  (PStr "T1");
        gets := 2;
        trace :=
          [EvSessionOpen 30;
           EvGet "https://api.haozhuma.com/sms/?api=login&user=alice&pass=secret"
             reset_answer;
           EvLog WARNING (LogRetry 1 3 (ClientError "connection reset") 1);
           EvSleep 1;
           EvGet "https://api.haozhuma.com/sms/?api=login&user=alice&pass=secret"
             granted_answer;
           EvLog INFO LogLoginOk] |})
  /\ exists events,
      [EvSessionOpen 30;
       EvGet "https://api.haozhuma.com/sms/?api=login&user=alice&pass=secret"
         reset_answer;
       EvLog WARNING (LogRetry 1 3 (ClientError "connection reset") 1);
       EvSleep 1;
       EvGet "https://api.haozhuma.com/sms/?api=login&user=alice&pass=secret"
         granted_answer;
       EvLog INFO LogLoginOk]
      = ([] ++ events)%list
      /\ Forall (eq "https://api.haozhuma.com/sms/?api=login&user=alice&pass=secret")
           (requests events).
Proof.
  assert (Hrun :
    login Config.defaults ascii_lower remote_reset_then_grant
      (fresh_world client_with_both)
    = (Return (PStr "T1"),
       {| self := set_token (set_session client_with_both (Some open_session))
                    (PStr "T1");
          gets := 2;
          trace :=
            [EvSessionOpen 30;
             EvGet "https://api.haozhuma.com/sms/?api=login&user=alice&pass=secret"
               reset_answer;
             EvLog WARNING (LogRetry 1 3 (ClientError "connection reset") 1);
             EvSleep 1;
             EvGet "https://api.haozhuma.com/sms/?api=login&user=alice&pass=secret"
               granted_answer;
             EvLog INFO LogLoginOk] |}))
    by reflexivity.
  split; [exact Hrun |].
  exact (proj1 (login_requests Config.defaults ascii_lower remote_reset_then_grant
                  _ _ _ Hrun)).
Defined.
